(** * The logger-context-json-serializable rule of the uptime-watcher ESLint plugin

    A shallow embedding of [rules/logger-context-json-serializable.mjs]:
    the call-site selector, the recursive type classification predicate
    [isJsonSerializableType] with its visited set, and the [CallExpression]
    visitor that turns a negative verdict into a diagnostic.

    The TypeScript checker and the ESTree nodes are the rule's environment.
    They appear here as records of exactly the queries the rule performs. *)

From Stdlib Require Import ZArith Ascii String List Bool Lia.
From stdpp Require Import base decidable countable gmap strings.
Import ListNotations.

Local Open Scope Z_scope.

(** ** JavaScript strings and the built-ins the rule calls

    A string is a sequence of code units; the model keeps the code units
    below 256 (Stdlib's [ascii]), which covers every character the rule
    tests for. *)

Module JS.

Definition code (c : ascii) : Z := Z.of_N (N_of_ascii c).

(** [WhiteSpace] and [LineTerminator] code units below 256: TAB, LF, VT,
    FF, CR, SP and NBSP. *)
Definition isWhiteSpace (c : ascii) : bool :=
  let n := code c in
  ((9 <=? n) && (n <=? 13)) || (n =? 32) || (n =? 160).

Definition isDecimalDigit (c : ascii) : bool :=
  let n := code c in (48 <=? n) && (n <=? 57).

Definition isUpper (c : ascii) : bool :=
  let n := code c in (65 <=? n) && (n <=? 90).

Definition isLower (c : ascii) : bool :=
  let n := code c in (97 <=? n) && (n <=? 122).

(** The class [\w] without the [i] flag: [[A-Za-z0-9_]]. *)
Definition isWordChar (c : ascii) : bool :=
  isUpper c || isLower c || isDecimalDigit c || (code c =? 95).

Fixpoint all (p : ascii -> bool) (s : string) : bool :=
  match s with
  | EmptyString => true
  | String c r => p c && all p r
  end.

(** [span p s] splits [s] after its longest prefix satisfying [p]. *)
Fixpoint span (p : ascii -> bool) (s : string) : string * string :=
  match s with
  | EmptyString => (EmptyString, EmptyString)
  | String c r =>
      if p c then let '(a, b) := span p r in (String c a, b)
      else (EmptyString, s)
  end.

Definition isEmpty (s : string) : bool :=
  match s with EmptyString => true | _ => false end.

(** [String.prototype.trimStart], [trimEnd] and [trim]. *)
Fixpoint trimStart (s : string) : string :=
  match s with
  | EmptyString => EmptyString
  | String c r => if isWhiteSpace c then trimStart r else s
  end.

Fixpoint trimEnd (s : string) : string :=
  match s with
  | EmptyString => EmptyString
  | String c r =>
      let r' := trimEnd r in
      if isWhiteSpace c && isEmpty r' then EmptyString else String c r'
  end.

Definition trim (s : string) : string := trimEnd (trimStart s).

(** [s.startsWith(p)] and [s.endsWith(p)]. *)
Definition startsWith (s p : string) : bool := String.prefix p s.

Fixpoint endsWith (s p : string) : bool :=
  String.eqb s p ||
  match s with
  | EmptyString => false
  | String _ r => endsWith r p
  end.

(** [s.slice(0, -1)]: everything but the last code unit. *)
Fixpoint sliceInit (s : string) : string :=
  match s with
  | EmptyString => EmptyString
  | String c EmptyString => EmptyString
  | String c r => String c (sliceInit r)
  end.

Definition length (s : string) : Z := Z.of_nat (String.length s).

(** The one-character string holding the double quote (code unit 34). *)
Definition doubleQuote : string := String (ascii_of_nat 34) EmptyString.

(** *** Number values

    A Number is NaN, an infinity, or a finite binary64 value written
    [mantissa * 2 ^ exponent] with a sign (so that [-0] is a value). *)
Inductive Number : Type :=
| NaN
| Infinity (negative : bool)
| Finite (negative : bool) (mantissa exponent : Z).

(** Round the positive rational [p / q] to binary64, ties to even.
    [None] is overflow.  The result [(m, e)] stands for [m * 2 ^ e] with
    [m < 2 ^ 53] and [-1074 <= e <= 971]. *)
Definition roundBinary64 (p q : Z) : option (Z * Z) :=
  if p =? 0 then Some (0, 0)
  else
    let l := Z.log2 p - Z.log2 q in
    let fl := if q * 2 ^ Z.max 0 l <=? p * 2 ^ Z.max 0 (- l) then l else l - 1 in
    let e := Z.max (fl - 52) (-1074) in
    let num := p * 2 ^ Z.max 0 (- e) in
    let den := q * 2 ^ Z.max 0 e in
    let m0 := num / den in
    let r := num mod den in
    let m :=
      if 2 * r <? den then m0
      else if den <? 2 * r then m0 + 1
      else if Z.even m0 then m0 else m0 + 1 in
    let '(m', e') := if m =? 2 ^ 53 then (2 ^ 52, e + 1) else (m, e) in
    if 971 <? e' then None else Some (m', e').

(** The value [d * 10 ^ x] as a Number. *)
Definition ofDecimal (negative : bool) (d x : Z) : Number :=
  match roundBinary64 (d * 10 ^ Z.max 0 x) (10 ^ Z.max 0 (- x)) with
  | Some (m, e) => Finite negative m e
  | None => Infinity negative
  end.

Definition digitValue (c : ascii) : Z :=
  let n := code c in
  if isDecimalDigit c then n - 48
  else if (97 <=? n) && (n <=? 102) then n - 87
  else if (65 <=? n) && (n <=? 70) then n - 55
  else -1.

Definition isDigitOfBase (base : Z) (c : ascii) : bool :=
  let v := digitValue c in (0 <=? v) && (v <? base).

Fixpoint digitsValue (base : Z) (acc : Z) (s : string) : Z :=
  match s with
  | EmptyString => acc
  | String c r => digitsValue base (acc * base + digitValue c) r
  end.

(** [ExponentPart_opt] at the end of the literal: the decimal exponent,
    or [None] when the rest is not an exponent part. *)
Definition parseExponent (s : string) : option Z :=
  match s with
  | EmptyString => Some 0
  | String c r =>
      if (code c =? 101) || (code c =? 69) then
        let '(negative, ds) :=
          match r with
          | String sg r' =>
              if code sg =? 43 then (false, r')
              else if code sg =? 45 then (true, r')
              else (false, r)
          | EmptyString => (false, r)
          end in
        if isEmpty ds || negb (all isDecimalDigit ds) then None
        else
          let v := digitsValue 10 0 ds in
          Some (if negative then - v else v)
      else None
  end.

(** [StrUnsignedDecimalLiteral] other than [Infinity]: the pair [(d, x)]
    of the value [d * 10 ^ x]. *)
Definition parseDecimal (s : string) : option (Z * Z) :=
  let '(ip, r1) := span isDecimalDigit s in
  let '(fp, r2) :=
    match r1 with
    | String c r => if code c =? 46 then span isDecimalDigit r else (EmptyString, r1)
    | EmptyString => (EmptyString, r1)
    end in
  if isEmpty ip && isEmpty fp then None
  else
    match parseExponent r2 with
    | Some x =>
        Some (digitsValue 10 0 (String.append ip fp),
              x - Z.of_nat (String.length fp))
    | None => None
    end.

Definition StrUnsignedDecimalLiteral (negative : bool) (s : string) : Number :=
  if String.eqb s "Infinity" then Infinity negative
  else
    match parseDecimal s with
    | Some (d, x) => ofDecimal negative d x
    | None => NaN
    end.

(** [NonDecimalIntegerLiteral]: [0x], [0o] and [0b] prefixes, no sign. *)
Definition nonDecimalBase (s : string) : option (Z * string) :=
  match s with
  | String z (String k r) =>
      if code z =? 48 then
        let n := code k in
        if (n =? 120) || (n =? 88) then Some (16, r)
        else if (n =? 111) || (n =? 79) then Some (8, r)
        else if (n =? 98) || (n =? 66) then Some (2, r)
        else None
      else None
  | _ => None
  end.

(** The abstract operation [StringToNumber], which [Number(s)] applies
    to a string argument. *)
Definition StringToNumber (s : string) : Number :=
  match trim s with
  | EmptyString => Finite false 0 0
  | String c r as t =>
      if code c =? 43 then StrUnsignedDecimalLiteral false r
      else if code c =? 45 then StrUnsignedDecimalLiteral true r
      else
        match nonDecimalBase t with
        | Some (base, ds) =>
            if isEmpty ds || negb (all (isDigitOfBase base) ds) then NaN
            else ofDecimal false (digitsValue base 0 ds) 0
        | None => StrUnsignedDecimalLiteral false t
        end
  end.

(** [Number.isFinite] and [Number.isInteger]. *)
Definition isFinite (n : Number) : bool :=
  match n with Finite _ _ _ => true | _ => false end.

Definition isInteger (n : Number) : bool :=
  match n with
  | Finite _ m e => (0 <=? e) || (m mod 2 ^ (- e) =? 0)
  | _ => false
  end.

End JS.

Local Open Scope string_scope.

(** ** The host interfaces

    Types, symbols, declarations and syntax nodes are handles into the
    host: two handles are the same type exactly when they are equal. *)

Definition TsType := positive.
Definition TsSymbol := positive.
Definition TsDeclaration := positive.
Definition TsSignature := positive.
Definition TsNode := positive.

Inductive SignatureKind : Type := Call | Construct.

(** The queries the rule makes on a [ts.TypeChecker] and on the [ts.Type]
    and [ts.Symbol] objects it hands out. *)
Record TypeChecker : Type := {
  typeToString : TsType -> string;
  isUnion : TsType -> bool;
  isIntersection : TsType -> bool;
  types : TsType -> list TsType;
  isTupleType : TsType -> bool;
  isArrayType : TsType -> bool;
  getTypeArguments : TsType -> list TsType;
  getSignaturesOfType : TsType -> SignatureKind -> list TsSignature;
  getStringIndexType : TsType -> option TsType;
  getProperties : TsType -> list TsSymbol;
  valueDeclaration : TsSymbol -> option TsDeclaration;
  getTypeOfSymbolAtLocation : TsSymbol -> TsDeclaration -> TsType;
  getTypeAtLocation : TsNode -> TsType
}.

Module ESTree.

Inductive NodeType : Type :=
| ArrayExpression
| Literal
| ObjectExpression
| TemplateLiteral
| SpreadElement
| Identifier
| PrivateIdentifier
| MemberExpression
| CallExpression
| OtherExpression.

Definition NodeType_eqb (a b : NodeType) : bool :=
  match a, b with
  | ArrayExpression, ArrayExpression
  | Literal, Literal
  | ObjectExpression, ObjectExpression
  | TemplateLiteral, TemplateLiteral
  | SpreadElement, SpreadElement
  | Identifier, Identifier
  | PrivateIdentifier, PrivateIdentifier
  | MemberExpression, MemberExpression
  | CallExpression, CallExpression
  | OtherExpression, OtherExpression => true
  | _, _ => false
  end.

(** A call argument: its node type and its identity in the tree. *)
Record Node : Type := { type : NodeType; id : positive }.

(** The [property] child of a member access; [name] is read only for
    identifiers. *)
Record Property : Type := { property_type : NodeType; name : string }.

(** A callee; [computed] and [property] are read only when [callee_type]
    is [MemberExpression]. *)
Record Callee : Type := {
  callee_type : NodeType;
  computed : bool;
  property : Property
}.

Record CallExpressionNode : Type := {
  callee : Callee;
  arguments : list Node
}.

End ESTree.

(** [parserServices] as obtained from [getTypedRuleServices]. *)
Record Services : Type := {
  checker : TypeChecker;
  esTreeNodeToTSNodeMap : ESTree.Node -> TsNode
}.

(** ** The rule *)

Definition has (set : list string) (x : string) : bool :=
  existsb (String.eqb x) set.

Definition LOGGER_METHODS : list string :=
  ["action"; "debug"; "error"; "info"; "warn"].

Definition JSON_PRIMITIVE_NAMES : list string :=
  ["boolean"; "false"; "null"; "number"; "string"; "true"].

Definition NON_SERIALIZABLE_TYPE_NAMES : list string :=
  ["bigint"; "Date"; "Function"; "Map"; "Promise"; "RegExp"; "Set";
   "symbol"; "unique symbol"; "WeakMap"; "WeakSet"].

Definition JSON_LITERAL_PRIMITIVE_NAMES : list string :=
  ["false"; "null"; "true"; "undefined"].

Definition isStringLiteralTypeName (typeName : string) : bool :=
  (2 <=? JS.length typeName)%Z &&
  JS.startsWith typeName JS.doubleQuote &&
  JS.endsWith typeName JS.doubleQuote.

Definition isNumericLiteralTypeName (typeName : string) : bool :=
  if (JS.length typeName =? 0)%Z
     || String.eqb typeName "Infinity"
     || String.eqb typeName "NaN"
  then false
  else JS.isFinite (JS.StringToNumber typeName).

Definition isBigIntLiteralTypeName (typeName : string) : bool :=
  if negb (JS.endsWith typeName "n") || (JS.length typeName <=? 1)%Z then false
  else
    let bigintSource := JS.sliceInit typeName in
    JS.isInteger (JS.StringToNumber bigintSource).

(** The test of [/^[A-Z]\w*$/v]. *)
Definition isLikelyTypeParameterName (typeName : string) : bool :=
  match typeName with
  | EmptyString => false
  | String c r => JS.isUpper c && JS.all JS.isWordChar r
  end.

Definition isContextLiteralExpression (arg : ESTree.Node) : bool :=
  match ESTree.type arg with
  | ESTree.SpreadElement => false
  | ESTree.ArrayExpression
  | ESTree.Literal
  | ESTree.ObjectExpression
  | ESTree.TemplateLiteral => true
  | _ => false
  end.

Definition getContextArgumentForMethod
    (loggerMethod : string) (callExpression : ESTree.CallExpressionNode)
  : option ESTree.Node :=
  let targetIndex := if String.eqb loggerMethod "error" then 2%nat else 1%nat in
  match nth_error (ESTree.arguments callExpression) targetIndex with
  | None => None
  | Some candidate =>
      if negb (isContextLiteralExpression candidate) then None
      else Some candidate
  end.

(** *** The classification predicate

    The visited set is one mutable [Set] shared by all recursive calls, so
    the model threads it: a call takes the set and returns the verdict with
    the set as the call left it.  The recursion of the source is not
    structural; [fuel] bounds its depth, and [None] is a call that needs
    more.  A call that is [None] for every [fuel] is one that does not
    return in the source. *)

Abbreviation Seen := (gset TsType).

Definition Outcome := option (bool * Seen).

(** [Array.prototype.every] with a callback that reads and extends the
    visited set: it stops at the first element judged [false]. *)
Fixpoint every {A : Type} (callback : A -> Seen -> Outcome)
    (elements : list A) (seen : Seen) : Outcome :=
  match elements with
  | [] => Some (true, seen)
  | x :: rest =>
      match callback x seen with
      | Some (true, seen') => every callback rest seen'
      | stop => stop
      end
  end.

Fixpoint isJsonSerializableType (fuel : nat) (checker : TypeChecker)
    (type : TsType) (seen : Seen) {struct fuel} : Outcome :=
  match fuel with
  | O => None
  | S fuel =>
      if bool_decide (type ∈ seen) then Some (true, seen)
      else
        let seen := {[type]} ∪ seen in
        let typeName := JS.trim (typeToString checker type) in
        if has NON_SERIALIZABLE_TYPE_NAMES typeName
           || isBigIntLiteralTypeName typeName
        then Some (false, seen)
        else if String.eqb typeName "any"
                || String.eqb typeName "never"
                || String.eqb typeName "unknown"
                || isLikelyTypeParameterName typeName
        then Some (true, seen)
        else if has JSON_LITERAL_PRIMITIVE_NAMES typeName
                || isStringLiteralTypeName typeName
                || isNumericLiteralTypeName typeName
        then Some (true, seen)
        else if has JSON_PRIMITIVE_NAMES typeName then Some (true, seen)
        else if isUnion checker type then
          every (isJsonSerializableType fuel checker) (types checker type) seen
        else if isIntersection checker type then
          every (isJsonSerializableType fuel checker) (types checker type) seen
        else if isTupleType checker type then
          every (isJsonSerializableType fuel checker)
                (getTypeArguments checker type) seen
        else if isArrayType checker type then
          match getTypeArguments checker type with
          | [] => Some (true, seen)
          | elementType :: _ =>
              isJsonSerializableType fuel checker elementType seen
          end
        else if (0 <? List.length (getSignaturesOfType checker type Call))%nat
                || (0 <? List.length (getSignaturesOfType checker type Construct))%nat
        then Some (false, seen)
        else
          match getStringIndexType checker type with
          | Some stringIndexType =>
              isJsonSerializableType fuel checker stringIndexType seen
          | None =>
              if (List.length (getProperties checker type) =? 0)%nat
                 && negb (String.eqb typeName "{}")
              then Some (false, seen)
              else
                every
                  (fun propertySymbol seen =>
                     match valueDeclaration checker propertySymbol with
                     | None => Some (true, seen)
                     | Some declaration =>
                         let propertyType :=
                           getTypeOfSymbolAtLocation checker propertySymbol
                                                     declaration in
                         isJsonSerializableType fuel checker propertyType seen
                     end)
                  (getProperties checker type) seen
          end
  end.

Definition getLoggerMethod (callee : ESTree.Callee) : option string :=
  if negb (ESTree.NodeType_eqb (ESTree.callee_type callee) ESTree.MemberExpression)
     || ESTree.computed callee
     || negb (ESTree.NodeType_eqb
                (ESTree.property_type (ESTree.property callee))
                ESTree.Identifier)
  then None
  else if negb (has LOGGER_METHODS (ESTree.name (ESTree.property callee)))
  then None
  else Some (ESTree.name (ESTree.property callee)).

(** A diagnostic handed to [context.report]. *)
Record Report : Type := {
  messageId : string;
  data_method : string;
  node : ESTree.Node
}.

(** The [CallExpression] visitor: the diagnostics it reports for one call
    node, [None] when the classification needs more fuel. *)
Definition CallExpression (fuel : nat) (services : Services)
    (node : ESTree.CallExpressionNode) : option (list Report) :=
  match getLoggerMethod (ESTree.callee node) with
  | None => Some []
  | Some loggerMethod =>
      if (List.length (ESTree.arguments node) <? 2)%nat then Some []
      else
        match getContextArgumentForMethod loggerMethod node with
        | None => Some []
        | Some contextArg =>
            let contextTsNode := esTreeNodeToTSNodeMap services contextArg in
            let contextType :=
              getTypeAtLocation (checker services) contextTsNode in
            match isJsonSerializableType fuel (checker services) contextType ∅ with
            | None => None
            | Some (true, _) => Some []
            | Some (false, _) =>
                Some [ {| messageId := "loggerContextMustBeJsonSerializable";
                          data_method := loggerMethod;
                          node := contextArg |} ]
            end
        end
  end.

(** ** The rule no-call-identifiers

    [rules/no-call-identifiers.mjs]: calls to banned identifiers, by bare
    name or as the property of a member access. *)

Module NoCallIdentifiers.

(** An entry of the [banned] option; [message] is optional. *)
Record BannedEntry : Type := { name : string; message : option string }.

(** The first element of [context.options]; [banned] is [None] when the
    property is absent or not an array. *)
Record RuleOption : Type := { banned : option (list BannedEntry) }.

(** A callee: [callee_name] is read when [type] is [Identifier],
    [property] when it is [MemberExpression]. *)
Record Callee : Type := {
  type : ESTree.NodeType;
  callee_name : string;
  property : ESTree.Property
}.

(** The node a report is anchored at: [node.callee] or
    [node.callee.property]. *)
Inductive Anchor : Type := AtCallee | AtProperty.

Record Report : Type := {
  messageId : string;
  data_details : string;
  data_name : string;
  node : Anchor
}.

(** [new Map(banned.map(entry => [entry.name, entry]))]: the entries are
    set in order, so a later entry replaces an earlier one of the same
    name. *)
Definition bannedByName (banned : list BannedEntry)
  : gmap string BannedEntry :=
  foldl (fun map entry => <[name entry := entry]> map) ∅ banned.

Definition detailsFor (entry : BannedEntry) : string :=
  match message entry with
  | Some text =>
      if (0 <? JS.length text)%Z then text
      else "Call the shared helper instead."
  | None => "Call the shared helper instead."
  end.

Definition bannedCall (entry : BannedEntry) (called : string)
    (anchor : Anchor) : Report :=
  {| messageId := "bannedCall";
     data_details := detailsFor entry;
     data_name := called;
     node := anchor |}.

(** The banned list of [create]: [context.options?.[0]?.banned] when it is
    an array, the empty list otherwise. *)
Definition bannedOf (options : list RuleOption) : list BannedEntry :=
  match options with
  | [] => []
  | option :: _ =>
      match banned option with
      | Some entries => entries
      | None => []
      end
  end.

(** The [CallExpression] visitor: the reports it makes for one call.  The
    first [if] either returns, or leaves the reports made so far to the
    second. *)
Definition CallExpression (options : list RuleOption) (callee : Callee)
  : list Report :=
  let map := bannedByName (bannedOf options) in
  let first : option (list Report) :=
    if ESTree.NodeType_eqb (type callee) ESTree.Identifier then
      match map !! callee_name callee with
      | None => None
      | Some entry => Some [bannedCall entry (callee_name callee) AtCallee]
      end
    else Some [] in
  match first with
  | None => []
  | Some reports =>
      if ESTree.NodeType_eqb (type callee) ESTree.MemberExpression
         && ESTree.NodeType_eqb (ESTree.property_type (property callee))
                                ESTree.Identifier
      then
        match map !! ESTree.name (property callee) with
        | None => reports
        | Some entry =>
            reports
              ++ [bannedCall entry (ESTree.name (property callee)) AtProperty]
        end
      else reports
  end.

(** For the statements: the identifier a call names, bare or as the
    property of a member access, with the node a report would sit at. *)
Definition calledIdentifier (callee : Callee) : option (string * Anchor) :=
  match type callee with
  | ESTree.Identifier => Some (callee_name callee, AtCallee)
  | ESTree.MemberExpression =>
      match ESTree.property_type (property callee) with
      | ESTree.Identifier => Some (ESTree.name (property callee), AtProperty)
      | _ => None
      end
  | _ => None
  end.

End NoCallIdentifiers.

(** ** The rule no-deprecated-exports

    The second rule of [rules/no-call-identifiers.mjs]: exports whose
    JSDoc comment carries a [@deprecated] tag. *)

Module NoDeprecatedExports.

Record Loc : Type := { start_line : Z; end_line : Z }.

Inductive CommentType : Type := Block | Line | Shebang.

Record Comment : Type := {
  comment_type : CommentType;
  value : string;
  comment_loc : option Loc
}.

(** A syntax node: its identity, its type and its location. *)
Record Node : Type := {
  id : positive;
  node_type : ESTree.NodeType;
  node_loc : option Loc
}.

(** An [ExportDefaultDeclaration] or [ExportNamedDeclaration] node with
    its [declaration] child, when it has one. *)
Record ExportNode : Type := {
  export : Node;
  declaration : option Node
}.

(** [context.sourceCode]; [getJSDocComment] is [None] when the host no
    longer has that function. *)
Record SourceCode : Type := {
  getJSDocComment : option (Node -> option Comment);
  getCommentsBefore : Node -> option (list Comment)
}.

Record Context : Type := {
  sourceCode : option SourceCode;
  getSourceCode : option (unit -> option SourceCode)
}.

Record Report : Type := { messageId : string; node : Node }.

(** Case folding of the letters A to Z. *)
Definition toLower (c : ascii) : ascii :=
  if JS.isUpper c then ascii_of_N (N_of_ascii c + 32) else c.

(** Match the lower-case [pattern] at the head of [s] ignoring case: the
    rest of [s] after the match. *)
Fixpoint matchIgnoreCase (pattern s : string) : option string :=
  match pattern with
  | EmptyString => Some s
  | String p pattern' =>
      match s with
      | EmptyString => None
      | String c s' =>
          if Ascii.eqb (toLower c) p then matchIgnoreCase pattern' s'
          else None
      end
  end.

(** [\b] after a word character: the end of the input or a character
    outside [\w].  Among the code units below 256 the word characters
    are the letters A to Z and a to z, the digits and the underscore; the
    two further characters that the flags [iv] add to [\w], U+017F and
    U+212A, lie above that range. *)
Definition wordEndsAt (rest : string) : bool :=
  match rest with
  | EmptyString => true
  | String c _ => negb (JS.isWordChar c)
  end.

Definition tagAt (s : string) : bool :=
  match matchIgnoreCase "@deprecated" s with
  | Some rest => wordEndsAt rest
  | None => false
  end.

(** [DEPRECATED_TAG_PATTERN.test(s)] for [/@deprecated\b/iv], on a text
    made of code units below 256: a match at some position of [s]. *)
Fixpoint DEPRECATED_TAG_PATTERN_test (s : string) : bool :=
  tagAt s ||
  match s with
  | EmptyString => false
  | String _ r => DEPRECATED_TAG_PATTERN_test r
  end.

Definition isBlock (comment : Comment) : bool :=
  match comment_type comment with Block => true | _ => false end.

Definition getJSDocument (sourceCode : SourceCode) (node : option Node)
  : option Comment :=
  match node with
  | None => None
  | Some node =>
      let jsdoc :=
        match getJSDocComment sourceCode with
        | Some getJSDocComment => getJSDocComment node
        | None => None
        end in
      match jsdoc with
      | Some jsdoc => Some jsdoc
      | None =>
          match getCommentsBefore sourceCode node with
          | None => None
          | Some comments =>
              if (List.length comments =? 0)%nat then None
              else
                match last comments with
                | None => None
                | Some lastComment =>
                    if negb (isBlock lastComment) then None
                    else if negb (JS.startsWith
                                    (JS.trimStart (value lastComment)) "*")
                    then None
                    else
                      match comment_loc lastComment, node_loc node with
                      | Some commentLoc, Some nodeLoc =>
                          if (end_line commentLoc <? start_line nodeLoc - 1)%Z
                          then None
                          else Some lastComment
                      | _, _ => None
                      end
                end
          end
      end
  end.

(** [inspectedNodes] is a [WeakSet] of node objects; the model keeps the
    identities of the nodes.  A call returns its reports and the set as it
    leaves it. *)
Definition reportIfDeprecated (sourceCode : SourceCode)
    (inspectedNodes : gset positive)
    (targetNode : option Node) (reportNode : Node)
  : list Report * gset positive :=
  match targetNode with
  | None => ([], inspectedNodes)
  | Some target =>
      if bool_decide (id target ∈ inspectedNodes) then ([], inspectedNodes)
      else
        let inspectedNodes := {[id target]} ∪ inspectedNodes in
        match getJSDocument sourceCode targetNode with
        | None => ([], inspectedNodes)
        | Some comment =>
            if negb (DEPRECATED_TAG_PATTERN_test (value comment))
            then ([], inspectedNodes)
            else ([ {| messageId := "noDeprecatedExports";
                       node := reportNode |} ], inspectedNodes)
        end
  end.

Definition ExportDefaultDeclaration (sourceCode : SourceCode)
    (inspectedNodes : gset positive) (node : ExportNode)
  : list Report * gset positive :=
  match declaration node with
  | Some declared =>
      if negb (ESTree.NodeType_eqb (node_type declared) ESTree.Identifier)
      then reportIfDeprecated sourceCode inspectedNodes
             (Some declared) (export node)
      else reportIfDeprecated sourceCode inspectedNodes
             (Some (export node)) (export node)
  | None =>
      reportIfDeprecated sourceCode inspectedNodes
        (Some (export node)) (export node)
  end.

Definition ExportNamedDeclaration (sourceCode : SourceCode)
    (inspectedNodes : gset positive) (node : ExportNode)
  : list Report * gset positive :=
  match declaration node with
  | Some declared =>
      reportIfDeprecated sourceCode inspectedNodes
        (Some declared) (export node)
  | None =>
      reportIfDeprecated sourceCode inspectedNodes
        (Some (export node)) (export node)
  end.

(** The export nodes a traversal visits, in order. *)
Inductive Visit : Type :=
| VisitDefault (node : ExportNode)
| VisitNamed (node : ExportNode).

Definition visitOne (sourceCode : SourceCode) (inspectedNodes : gset positive)
    (visit : Visit) : list Report * gset positive :=
  match visit with
  | VisitDefault node =>
      ExportDefaultDeclaration sourceCode inspectedNodes node
  | VisitNamed node =>
      ExportNamedDeclaration sourceCode inspectedNodes node
  end.

(** [context.sourceCode ?? context.getSourceCode?.()]. *)
Definition resolveSourceCode (context : Context) : option SourceCode :=
  match sourceCode context with
  | Some found => Some found
  | None =>
      match getSourceCode context with
      | Some getSourceCode => getSourceCode tt
      | None => None
      end
  end.

(** One lint pass: [create] makes a fresh [inspectedNodes] and, when there
    is source code, the two visitors, which the host then calls on the
    export nodes in traversal order.  Without source code [create] returns
    no visitor. *)
Fixpoint visitAll (sourceCode : SourceCode) (inspectedNodes : gset positive)
    (visits : list Visit) : list Report :=
  match visits with
  | [] => []
  | visit :: rest =>
      let '(reports, inspectedNodes) :=
        visitOne sourceCode inspectedNodes visit in
      reports ++ visitAll sourceCode inspectedNodes rest
  end.

Definition lint (context : Context) (visits : list Visit) : list Report :=
  match resolveSourceCode context with
  | None => []
  | Some sourceCode => visitAll sourceCode ∅ visits
  end.

(** For the statements: the node whose comment a visit inspects, the
    export node it reports at, and a string with its letters A to Z in
    lower case. *)
Definition targetOf (visit : Visit) : Node :=
  match visit with
  | VisitDefault node =>
      match declaration node with
      | Some declared =>
          if ESTree.NodeType_eqb (node_type declared) ESTree.Identifier
          then export node else declared
      | None => export node
      end
  | VisitNamed node =>
      match declaration node with
      | Some declared => declared
      | None => export node
      end
  end.

Definition exportOf (visit : Visit) : Node :=
  match visit with
  | VisitDefault node | VisitNamed node => export node
  end.

Fixpoint lowerString (s : string) : string :=
  match s with
  | EmptyString => EmptyString
  | String c r => String (toLower c) (lowerString r)
  end.

End NoDeprecatedExports.

(** ** A structural view of one classification step

    What [isJsonSerializableType] does with a type it has not visited
    depends on the type alone: its trimmed canonical name may settle the
    verdict ([nameVerdict]); otherwise the type is rejected, accepted, or
    the verdict is that of [every] over a list of component types. *)

Definition nameVerdict (typeName : string) : option bool :=
  if has NON_SERIALIZABLE_TYPE_NAMES typeName
     || isBigIntLiteralTypeName typeName
  then Some false
  else if String.eqb typeName "any"
          || String.eqb typeName "never"
          || String.eqb typeName "unknown"
          || isLikelyTypeParameterName typeName
  then Some true
  else if has JSON_LITERAL_PRIMITIVE_NAMES typeName
          || isStringLiteralTypeName typeName
          || isNumericLiteralTypeName typeName
  then Some true
  else if has JSON_PRIMITIVE_NAMES typeName then Some true
  else None.

Definition canonicalName (checker : TypeChecker) (type : TsType) : string :=
  JS.trim (typeToString checker type).

(** The declared type of a property symbol, when it has a value
    declaration. *)
Definition propertyType (checker : TypeChecker) (propertySymbol : TsSymbol)
  : option TsType :=
  match valueDeclaration checker propertySymbol with
  | None => None
  | Some declaration =>
      Some (getTypeOfSymbolAtLocation checker propertySymbol declaration)
  end.

Definition hasSignatures (checker : TypeChecker) (type : TsType) : bool :=
  (0 <? List.length (getSignaturesOfType checker type Call))%nat
  || (0 <? List.length (getSignaturesOfType checker type Construct))%nat.

Inductive Step : Type :=
| Reject
| Accept
| Recurse (components : list TsType).

Definition structuralStep (checker : TypeChecker) (type : TsType) : Step :=
  if isUnion checker type then Recurse (types checker type)
  else if isIntersection checker type then Recurse (types checker type)
  else if isTupleType checker type then Recurse (getTypeArguments checker type)
  else if isArrayType checker type then
    match getTypeArguments checker type with
    | [] => Accept
    | elementType :: _ => Recurse [elementType]
    end
  else if hasSignatures checker type then Reject
  else
    match getStringIndexType checker type with
    | Some stringIndexType => Recurse [stringIndexType]
    | None =>
        if (List.length (getProperties checker type) =? 0)%nat
           && negb (String.eqb (canonicalName checker type) "{}")
        then Reject
        else Recurse (omap (propertyType checker) (getProperties checker type))
    end.

Definition classify (checker : TypeChecker) (type : TsType) : Step :=
  match nameVerdict (canonicalName checker type) with
  | Some false => Reject
  | Some true => Accept
  | None => structuralStep checker type
  end.

(** [edge checker t d]: classifying [t] descends into [d]. *)
Definition edge (checker : TypeChecker) (t d : TsType) : Prop :=
  exists components, classify checker t = Recurse components /\ d ∈ components.

(** [reach checker t d]: [d] is [t] or a type the classifier can descend
    to from [t]. *)
Definition reach (checker : TypeChecker) : TsType -> TsType -> Prop :=
  rtc (edge checker).

(** The verdict of a top-level call, which starts from a fresh visited
    set. *)
Definition verdict (fuel : nat) (checker : TypeChecker) (type : TsType)
  : option bool :=
  match isJsonSerializableType fuel checker type ∅ with
  | Some (b, _) => Some b
  | None => None
  end.

(** ** Predicates used in the statements *)

(** The code units that can begin a [StringNumericLiteral]: white space,
    a sign, a digit or the decimal point ([Infinity] apart). *)
Definition numericStart (c : ascii) : bool :=
  JS.isWhiteSpace c || JS.isDecimalDigit c
  || (JS.code c =? 43)%Z || (JS.code c =? 45)%Z || (JS.code c =? 46)%Z.

(** [component checker t d]: the type [d] occurs directly in the structure
    of [t], as a member of a union or intersection, a type argument of a
    tuple or array, the value type of the string index signature, or the
    declared type of a property. *)
Definition component (checker : TypeChecker) (t d : TsType) : Prop :=
  d ∈ types checker t
  \/ d ∈ getTypeArguments checker t
  \/ getStringIndexType checker t = Some d
  \/ exists propertySymbol,
       propertySymbol ∈ getProperties checker t
       /\ propertyType checker propertySymbol = Some d.

(** [contains checker t d]: [d] occurs anywhere in the structure of [t]. *)
Definition contains (checker : TypeChecker) : TsType -> TsType -> Prop :=
  rtc (component checker).

(** [settled checker S G]: the visited types of [S] outside the
    in-progress set [G] are not rejected and have all their components
    visited. *)
Definition settled (checker : TypeChecker) (S G : gset TsType) : Prop :=
  forall x, x ∈ S -> x ∉ G ->
    classify checker x <> Reject /\ forall d, edge checker x d -> d ∈ S.

(** The part of the visitor that picks the argument to classify: the
    method test, the argument count test and the positional pick. *)
Definition selectContextArgument (node : ESTree.CallExpressionNode)
  : option ESTree.Node :=
  match getLoggerMethod (ESTree.callee node) with
  | None => None
  | Some loggerMethod =>
      if (List.length (ESTree.arguments node) <? 2)%nat then None
      else getContextArgumentForMethod loggerMethod node
  end.

(** The type the visitor resolves for an argument node. *)
Definition resolveType (services : Services) (argument : ESTree.Node) : TsType :=
  getTypeAtLocation (checker services) (esTreeNodeToTSNodeMap services argument).

Definition report (method : string) (argument : ESTree.Node) : Report :=
  {| messageId := "loggerContextMustBeJsonSerializable";
     data_method := method;
     node := argument |}.

Definition literalShaped (type : ESTree.NodeType) : Prop :=
  In type [ESTree.ArrayExpression; ESTree.Literal;
           ESTree.ObjectExpression; ESTree.TemplateLiteral].

(** A structural object type whose properties are all declared with a
    JSON primitive type: the type renders as an object literal type
    ([{ ... }], and [{}] when it has no property), is no union,
    intersection, tuple or array, has no signature and no string index
    signature. *)
Record plainJsonObject (checker : TypeChecker) (type : TsType) : Prop := {
  plain_rendering : JS.startsWith (canonicalName checker type) "{" = true;
  plain_empty :
    getProperties checker type = [] -> canonicalName checker type = "{}";
  plain_not_union : isUnion checker type = false;
  plain_not_intersection : isIntersection checker type = false;
  plain_not_tuple : isTupleType checker type = false;
  plain_not_array : isArrayType checker type = false;
  plain_not_callable : getSignaturesOfType checker type Call = [];
  plain_not_constructible : getSignaturesOfType checker type Construct = [];
  plain_not_indexed : getStringIndexType checker type = None;
  plain_properties :
    forall propertySymbol, propertySymbol ∈ getProperties checker type ->
      exists declared,
        propertyType checker propertySymbol = Some declared /\
        In (canonicalName checker declared)
           ["string"; "number"; "boolean"; "null"]
}.

(** The call [logger.error("x", err, { cause: err })] with [err : Error]:
    the context argument has an object literal type with the one property
    [cause], whose declared type renders as [Error]. *)
Record errorCauseCall (services : Services) (node : ESTree.CallExpressionNode)
    (contextArg : ESTree.Node) : Prop := {
  cause_selected : selectContextArgument node = Some contextArg;
  cause_method :
    ESTree.name (ESTree.property (ESTree.callee node)) = "error";
  cause_rendering :
    canonicalName (checker services) (resolveType services contextArg)
    = "{ cause: Error; }";
  cause_structural :
    structuralStep (checker services) (resolveType services contextArg)
    = Recurse (omap (propertyType (checker services))
                 (getProperties (checker services)
                    (resolveType services contextArg)));
  cause_property :
    forall declared,
      declared ∈ omap (propertyType (checker services))
                   (getProperties (checker services)
                      (resolveType services contextArg)) ->
      canonicalName (checker services) declared = "Error"
}.

(** The steps of the decision order a type gets to.  [reachesSignatureStep]:
    the canonical name settles nothing and the type is no union,
    intersection, tuple or array.  [reachesIndexStep]: moreover the type
    has no call or construct signature.  [reachesPropertyStep]: moreover
    it has no string index signature and is not rejected for having no
    property. *)
Definition reachesSignatureStep (checker : TypeChecker) (type : TsType) : Prop :=
  nameVerdict (canonicalName checker type) = None
  /\ isUnion checker type = false
  /\ isIntersection checker type = false
  /\ isTupleType checker type = false
  /\ isArrayType checker type = false.

Definition reachesIndexStep (checker : TypeChecker) (type : TsType) : Prop :=
  reachesSignatureStep checker type /\ hasSignatures checker type = false.

Definition reachesPropertyStep (checker : TypeChecker) (type : TsType) : Prop :=
  reachesIndexStep checker type
  /\ getStringIndexType checker type = None
  /\ (getProperties checker type <> [] \/ canonicalName checker type = "{}").

(** The values the rule is after: a type named Date, Map, Set, RegExp,
    Promise or bigint, a bigint literal type, or a function, that is a
    type that gets to the signature step and has a call or construct
    signature. *)
Definition nonSerializableValue (checker : TypeChecker) (type : TsType) : Prop :=
  In (canonicalName checker type)
     ["Date"; "Map"; "Set"; "RegExp"; "Promise"; "bigint"]
  \/ isBigIntLiteralTypeName (canonicalName checker type) = true
  \/ (reachesSignatureStep checker type /\ hasSignatures checker type = true).

(** The four ways a type is judged not serializable on its own: its name
    is on the denylist, its name is that of a bigint literal, it gets to
    the signature step and has a call or construct signature, or it gets
    to the property step's guard with no string index signature, no
    property, and a name other than [{}]. *)
Definition rejectedType (checker : TypeChecker) (type : TsType) : Prop :=
  In (canonicalName checker type) NON_SERIALIZABLE_TYPE_NAMES
  \/ isBigIntLiteralTypeName (canonicalName checker type) = true
  \/ (reachesSignatureStep checker type /\ hasSignatures checker type = true)
  \/ (reachesIndexStep checker type
      /\ getStringIndexType checker type = None
      /\ getProperties checker type = []
      /\ canonicalName checker type <> "{}").

(** ** Building checkers from tables

  A finite description of a host: each type handle with its rendering and
  shape, each property symbol with the type of its value declaration (a
  symbol without entry has no value declaration), each syntax node with
  its type. *)

Module Fixture.

Inductive Shape : Type :=
| Opaque
| UnionOf (members : list TsType)
| IntersectionOf (members : list TsType)
| TupleOf (elements : list TsType)
| ArrayOf (typeArguments : list TsType)
| ObjectOf (callSignatures constructSignatures : list TsSignature)
         (stringIndex : option TsType) (properties : list TsSymbol).

Record Host : Type := {
typeTable : gmap TsType (string * Shape);
symbolTable : gmap TsSymbol TsType;
nodeTable : gmap TsNode TsType
}.

Definition shapeOf (host : Host) (type : TsType) : Shape :=
match typeTable host !! type with
| Some (_, shape) => shape
| None => Opaque
end.

Definition checkerOf (host : Host) : TypeChecker := {|
typeToString type :=
  match typeTable host !! type with
  | Some (rendering, _) => rendering
  | None => "never"
  end;
isUnion type :=
  match shapeOf host type with UnionOf _ => true | _ => false end;
isIntersection type :=
  match shapeOf host type with IntersectionOf _ => true | _ => false end;
types type :=
  match shapeOf host type with
  | UnionOf members | IntersectionOf members => members
  | _ => []
  end;
isTupleType type :=
  match shapeOf host type with TupleOf _ => true | _ => false end;
isArrayType type :=
  match shapeOf host type with ArrayOf _ => true | _ => false end;
getTypeArguments type :=
  match shapeOf host type with
  | TupleOf arguments | ArrayOf arguments => arguments
  | _ => []
  end;
getSignaturesOfType type kind :=
  match shapeOf host type, kind with
  | ObjectOf calls _ _ _, Call => calls
  | ObjectOf _ constructs _ _, Construct => constructs
  | _, _ => []
  end;
getStringIndexType type :=
  match shapeOf host type with
  | ObjectOf _ _ stringIndex _ => stringIndex
  | _ => None
  end;
getProperties type :=
  match shapeOf host type with
  | ObjectOf _ _ _ properties => properties
  | _ => []
  end;
valueDeclaration propertySymbol :=
  match symbolTable host !! propertySymbol with
  | Some _ => Some propertySymbol
  | None => None
  end;
getTypeOfSymbolAtLocation propertySymbol _ :=
  default 1%positive (symbolTable host !! propertySymbol);
getTypeAtLocation tsNode :=
  default 1%positive (nodeTable host !! tsNode)
|}.

Definition servicesOf (host : Host) : Services := {|
checker := checkerOf host;
esTreeNodeToTSNodeMap argument := ESTree.id argument
|}.

(** A plain object type: no signatures, no index signature. *)
Definition object (rendering : string) (properties : list TsSymbol)
: string * Shape :=
(rendering, ObjectOf [] [] None properties).

Definition memberCall (method : string) (arguments : list ESTree.Node)
: ESTree.CallExpressionNode :=
{| ESTree.callee :=
     {| ESTree.callee_type := ESTree.MemberExpression;
        ESTree.computed := false;
        ESTree.property :=
          {| ESTree.property_type := ESTree.Identifier;
             ESTree.name := method |} |};
   ESTree.arguments := arguments |}.

Definition arg (type : ESTree.NodeType) (id : positive) : ESTree.Node :=
{| ESTree.type := type; ESTree.id := id |}.

(** The types a shape mentions, and the finite set of the types a host
    mentions at all: whatever the classifier descends to is one of those. *)
Definition shapeTypes (shape : Shape) : list TsType :=
  match shape with
  | Opaque => []
  | UnionOf members | IntersectionOf members => members
  | TupleOf arguments | ArrayOf arguments => arguments
  | ObjectOf _ _ stringIndex _ => option_list stringIndex
  end.

Definition mentioned (host : Host) : gset TsType :=
  list_to_set (map_to_list (typeTable host)
                 ≫= fun entry => shapeTypes (snd (snd entry)))
  ∪ map_img (symbolTable host).

Definition universe (host : Host) (root : TsType) : gset TsType :=
  {[root]} ∪ mentioned host.

(** [logger.debug("monitor update", { attempt: 2, status: "up",
    tags: ["prod", "edge"] })] of the typed fixture. *)
Definition monitorUpdate : Host := {|
typeTable := list_to_map
  [ (1%positive, object "{ attempt: number; status: string; tags: string[]; }"
                        [1; 2; 3]%positive);
    (2%positive, ("number", Opaque));
    (3%positive, ("string", Opaque));
    (4%positive, ("string[]", ArrayOf [3%positive])) ];
symbolTable := list_to_map
  [ (1%positive, 2%positive); (2%positive, 3%positive);
    (3%positive, 4%positive) ];
nodeTable := list_to_map [ (11%positive, 1%positive) ]
|}.

Definition monitorUpdateCall : ESTree.CallExpressionNode :=
memberCall "debug"
  [ arg ESTree.Literal 10; arg ESTree.ObjectExpression 11 ].

End Fixture.

(** ** Example hosts *)

(** The call [logger.debug("monitor update", { attempt: 2, status: "up" })]
    with every property of a primitive type. *)
Definition statusUpdate : Fixture.Host := {|
  Fixture.typeTable := list_to_map
    [ (1%positive, Fixture.object "{ attempt: number; status: string; }"
                                  [1; 2]%positive);
      (2%positive, ("number", Fixture.Opaque));
      (3%positive, ("string", Fixture.Opaque)) ];
  Fixture.symbolTable := list_to_map
    [ (1%positive, 2%positive); (2%positive, 3%positive) ];
  Fixture.nodeTable := list_to_map [ (11%positive, 1%positive) ]
|}.

Definition statusUpdateCall : ESTree.CallExpressionNode :=
  Fixture.memberCall "debug"
    [ Fixture.arg ESTree.Literal 10; Fixture.arg ESTree.ObjectExpression 11 ].

(** [Buffer], a class with methods only: every property is callable. *)
Definition bufferHost : Fixture.Host := {|
  Fixture.typeTable := list_to_map
    [ (1%positive, Fixture.object "Buffer" [1; 2]%positive);
      (2%positive, ("(encoding?: string) => string",
                    Fixture.ObjectOf [1%positive] [] None []));
      (3%positive, ("() => number",
                    Fixture.ObjectOf [2%positive] [] None [])) ];
  Fixture.symbolTable := list_to_map
    [ (1%positive, 2%positive); (2%positive, 3%positive) ];
  Fixture.nodeTable := ∅
|}.

(** The scenario with [Error] as the standard library declares it:
    [name], [message], and the optional [stack] and [cause]. *)
Definition errorCause : Fixture.Host := {|
  Fixture.typeTable := list_to_map
    [ (1%positive, Fixture.object "{ cause: Error; }" [1%positive]);
      (2%positive, Fixture.object "Error" [2; 3; 4; 5]%positive);
      (3%positive, ("string", Fixture.Opaque));
      (4%positive, ("string | undefined",
                    Fixture.UnionOf [3; 5]%positive));
      (5%positive, ("undefined", Fixture.Opaque));
      (6%positive, ("unknown", Fixture.Opaque)) ];
  Fixture.symbolTable := list_to_map
    [ (1%positive, 2%positive); (2%positive, 3%positive);
      (3%positive, 3%positive); (4%positive, 4%positive);
      (5%positive, 6%positive) ];
  Fixture.nodeTable := list_to_map
    [ (11%positive, 2%positive); (12%positive, 1%positive) ]
|}.

Definition errorCauseCallNode : ESTree.CallExpressionNode :=
  Fixture.memberCall "error"
    [ Fixture.arg ESTree.Literal 10; Fixture.arg ESTree.Identifier 11;
      Fixture.arg ESTree.ObjectExpression 12 ].

(** The same call when [Error] exposes no property at all. *)
Definition opaqueErrorCause : Fixture.Host := {|
  Fixture.typeTable := list_to_map
    [ (1%positive, Fixture.object "{ cause: Error; }" [1%positive]);
      (2%positive, Fixture.object "Error" []) ];
  Fixture.symbolTable := list_to_map [ (1%positive, 2%positive) ];
  Fixture.nodeTable := list_to_map
    [ (11%positive, 2%positive); (12%positive, 1%positive) ]
|}.

(** A list node type, [{ value: number; next: ... | null }] written out
    structurally, so that classification walks into the cycle. *)
Definition linkedList : Fixture.Host := {|
  Fixture.typeTable := list_to_map
    [ (1%positive, Fixture.object "{ value: number; next: ... | null; }"
                                  [1; 2]%positive);
      (2%positive, ("number", Fixture.Opaque));
      (3%positive, ("{ value: number; next: ... | null; } | null",
                    Fixture.UnionOf [4; 1]%positive));
      (4%positive, ("null", Fixture.Opaque)) ];
  Fixture.symbolTable := list_to_map
    [ (1%positive, 2%positive); (2%positive, 3%positive) ];
  Fixture.nodeTable := list_to_map [ (11%positive, 1%positive) ]
|}.

(** Two interfaces both named [foo], declared in different namespaces:
    [{ x: string }] and [{ d: Date }], as the properties [a] and [b] of an
    object literal. *)
Definition sameName : Fixture.Host := {|
  Fixture.typeTable := list_to_map
    [ (1%positive, Fixture.object "{ a: foo; b: foo; }" [1; 2]%positive);
      (2%positive, Fixture.object "foo" [3%positive]);
      (3%positive, Fixture.object "foo" [4%positive]);
      (4%positive, ("string", Fixture.Opaque));
      (5%positive, ("Date", Fixture.Opaque)) ];
  Fixture.symbolTable := list_to_map
    [ (1%positive, 2%positive); (2%positive, 3%positive);
      (3%positive, 4%positive); (4%positive, 5%positive) ];
  Fixture.nodeTable := list_to_map [ (11%positive, 1%positive) ]
|}.

(** [type Payload = Date | string]: a union that renders as its alias. *)
Definition payloadUnion : Fixture.Host := {|
  Fixture.typeTable := list_to_map
    [ (1%positive, ("Payload", Fixture.UnionOf [2; 3]%positive));
      (2%positive, ("Date", Fixture.Opaque));
      (3%positive, ("string", Fixture.Opaque)) ];
  Fixture.symbolTable := ∅;
  Fixture.nodeTable := ∅
|}.

(** [logger.info("login", { user })] with [user : User] and
    [interface User { created: Date }]. *)
Definition userRecord : Fixture.Host := {|
  Fixture.typeTable := list_to_map
    [ (1%positive, Fixture.object "{ user: User; }" [1%positive]);
      (2%positive, Fixture.object "User" [2%positive]);
      (3%positive, ("Date", Fixture.Opaque)) ];
  Fixture.symbolTable := list_to_map
    [ (1%positive, 2%positive); (2%positive, 3%positive) ];
  Fixture.nodeTable := list_to_map [ (11%positive, 1%positive) ]
|}.

Definition userRecordCall : ESTree.CallExpressionNode :=
  Fixture.memberCall "info"
    [ Fixture.arg ESTree.Literal 10; Fixture.arg ESTree.ObjectExpression 11 ].

(** [logger.warn("slow", { at: new Date(), retry: () => void })] with the
    types written out: the object literal type holds a [Date] and a
    function. *)
Definition timestamped : Fixture.Host := {|
  Fixture.typeTable := list_to_map
    [ (1%positive, Fixture.object "{ at: Date; retry: () => void; }"
                                  [1; 2]%positive);
      (2%positive, ("Date", Fixture.Opaque));
      (3%positive, ("() => void",
                    Fixture.ObjectOf [1%positive] [] None [])) ];
  Fixture.symbolTable := list_to_map
    [ (1%positive, 2%positive); (2%positive, 3%positive) ];
  Fixture.nodeTable := list_to_map [ (11%positive, 1%positive) ]
|}.

Definition timestampedCall : ESTree.CallExpressionNode :=
  Fixture.memberCall "warn"
    [ Fixture.arg ESTree.Literal 10; Fixture.arg ESTree.ObjectExpression 11 ].

(** A dictionary of unknown values with a named [Date] property, a
    dictionary of dates, an array without type argument, an object whose
    one property has no value declaration, and a type parameter. *)
Definition dictionaries : Fixture.Host := {|
  Fixture.typeTable := list_to_map
    [ (1%positive, ("{ [x: string]: unknown; at: Date; }",
                    Fixture.ObjectOf [] [] (Some 2%positive) [1%positive]));
      (2%positive, ("unknown", Fixture.Opaque));
      (3%positive, ("{ [x: string]: Date; }",
                    Fixture.ObjectOf [] [] (Some 4%positive) []));
      (4%positive, ("Date", Fixture.Opaque));
      (5%positive, ("[]", Fixture.ArrayOf []));
      (6%positive, Fixture.object "{ mapped: ...; }" [2%positive]);
      (7%positive, ("T", Fixture.Opaque)) ];
  Fixture.symbolTable := list_to_map [ (1%positive, 4%positive) ];
  Fixture.nodeTable := ∅
|}.

(** [logger.debug("runtime normalized payload", dynamicPayload)] of the
    typed fixture, and [logger.error("failed", { at: new Date() })], whose
    object literal sits in the error slot. *)
Definition forwardedCall : ESTree.CallExpressionNode :=
  Fixture.memberCall "debug"
    [ Fixture.arg ESTree.Literal 10; Fixture.arg ESTree.Identifier 11 ].

Definition errorSlotCall : ESTree.CallExpressionNode :=
  Fixture.memberCall "error"
    [ Fixture.arg ESTree.Literal 10; Fixture.arg ESTree.ObjectExpression 11 ].

(** Options banning [setTimeout] twice and [fetch] with an empty message,
    and the calls [setTimeout(...)], [window.fetch(...)] and
    [window[fetch](...)]. *)
Definition bannedTimers : list NoCallIdentifiers.RuleOption :=
  [ {| NoCallIdentifiers.banned := Some
         [ {| NoCallIdentifiers.name := "setTimeout";
              NoCallIdentifiers.message := Some "Use the scheduler." |};
           {| NoCallIdentifiers.name := "fetch";
              NoCallIdentifiers.message := Some "" |};
           {| NoCallIdentifiers.name := "setTimeout";
              NoCallIdentifiers.message := None |} ] |} ].

Definition bareCall (called : string) : NoCallIdentifiers.Callee :=
  {| NoCallIdentifiers.type := ESTree.Identifier;
     NoCallIdentifiers.callee_name := called;
     NoCallIdentifiers.property :=
       {| ESTree.property_type := ESTree.OtherExpression;
          ESTree.name := "" |} |}.

Definition memberCallOf (called : string) : NoCallIdentifiers.Callee :=
  {| NoCallIdentifiers.type := ESTree.MemberExpression;
     NoCallIdentifiers.callee_name := "";
     NoCallIdentifiers.property :=
       {| ESTree.property_type := ESTree.Identifier;
          ESTree.name := called |} |}.

(** A module with [/** @deprecated */ export const a = 1], an export whose
    JSDoc is separated from it by a blank line, and an export under a line
    comment; the host has no [getJSDocComment]. *)
Definition deprecatedComment (text : string) (first last : Z)
  : NoDeprecatedExports.Comment :=
  {| NoDeprecatedExports.comment_type := NoDeprecatedExports.Block;
     NoDeprecatedExports.value := text;
     NoDeprecatedExports.comment_loc :=
       Some {| NoDeprecatedExports.start_line := first;
               NoDeprecatedExports.end_line := last |} |}.

Definition exportAt (identity : positive) (line : Z)
  : NoDeprecatedExports.ExportNode :=
  {| NoDeprecatedExports.export :=
       {| NoDeprecatedExports.id := identity;
          NoDeprecatedExports.node_type := ESTree.OtherExpression;
          NoDeprecatedExports.node_loc :=
            Some {| NoDeprecatedExports.start_line := line;
                    NoDeprecatedExports.end_line := line |} |};
     NoDeprecatedExports.declaration :=
       Some {| NoDeprecatedExports.id := Pos.succ identity;
               NoDeprecatedExports.node_type := ESTree.OtherExpression;
               NoDeprecatedExports.node_loc :=
                 Some {| NoDeprecatedExports.start_line := line;
                         NoDeprecatedExports.end_line := line |} |} |}.

Definition deprecatedModule : NoDeprecatedExports.SourceCode :=
  {| NoDeprecatedExports.getJSDocComment := None;
     NoDeprecatedExports.getCommentsBefore node :=
       if Pos.eqb (NoDeprecatedExports.id node) 11
       then Some [deprecatedComment "* @deprecated use b " 1 1]
       else if Pos.eqb (NoDeprecatedExports.id node) 21
       then Some [deprecatedComment "* @deprecated " 4 4]
       else if Pos.eqb (NoDeprecatedExports.id node) 31
       then Some [ {| NoDeprecatedExports.comment_type :=
                        NoDeprecatedExports.Line;
                      NoDeprecatedExports.value := " @deprecated";
                      NoDeprecatedExports.comment_loc :=
                        Some {| NoDeprecatedExports.start_line := 9;
                                NoDeprecatedExports.end_line := 9 |} |} ]
       else Some [] |}.

Definition deprecatedVisits : list NoDeprecatedExports.Visit :=
  [ NoDeprecatedExports.VisitNamed (exportAt 10 2);
    NoDeprecatedExports.VisitNamed (exportAt 20 7);
    NoDeprecatedExports.VisitNamed (exportAt 30 10);
    NoDeprecatedExports.VisitNamed (exportAt 10 2) ].

(** [logger.error("failed", err, { at: new Date() })] and the same call
    with another message, another error object and a fourth argument. *)
Definition errorCallA : ESTree.CallExpressionNode :=
  Fixture.memberCall "error"
    [ Fixture.arg ESTree.Literal 10; Fixture.arg ESTree.Identifier 12;
      Fixture.arg ESTree.ObjectExpression 11 ].

Definition errorCallB : ESTree.CallExpressionNode :=
  Fixture.memberCall "error"
    [ Fixture.arg ESTree.TemplateLiteral 13;
      Fixture.arg ESTree.ObjectExpression 14;
      Fixture.arg ESTree.ObjectExpression 11;
      Fixture.arg ESTree.SpreadElement 15 ].

(** The string literal types ["Date"] and ["10n"], and the bigint literal
    types [10n] and [-3n]. *)
Definition literalTypes : Fixture.Host := {|
  Fixture.typeTable := list_to_map
    [ (1%positive, (String.append JS.doubleQuote
                      (String.append "Date" JS.doubleQuote), Fixture.Opaque));
      (2%positive, (String.append JS.doubleQuote
                      (String.append "10n" JS.doubleQuote), Fixture.Opaque));
      (3%positive, ("10n", Fixture.Opaque));
      (4%positive, ("-3n", Fixture.Opaque)) ];
  Fixture.symbolTable := ∅;
  Fixture.nodeTable := ∅
|}.

(** An interface that nests its own instantiation,
    [interface box<T> { inner: box<box<T>> }], with [b : box<number>]
    logged as [logger.info("boxes", { b })].  The checker instantiates
    [box<number>], [box<box<number>>], ... on demand, each a type object
    of its own: the handle [1] is the type of the object literal and the
    handle [n + 1] the box nested [n] times.  The property symbol [n] is
    the one property of the type [n]: declared, and of the type [n + 1].
    The checker shortens the rendering of a deeply nested type; it still
    begins with [box<], and the name rules look no further. *)
Fixpoint boxName (depth : nat) : string :=
  match depth with
  | O => "number"
  | S depth => String.append "box<" (String.append (boxName depth) ">")
  end.

Definition nestedBoxes : TypeChecker := {|
  typeToString type :=
    match type with
    | 1%positive => "{ b: box<number>; }"
    | _ => boxName (Pos.to_nat (Pos.pred type))
    end;
  isUnion _ := false;
  isIntersection _ := false;
  types _ := [];
  isTupleType _ := false;
  isArrayType _ := false;
  getTypeArguments _ := [];
  getSignaturesOfType _ _ := [];
  getStringIndexType _ := None;
  getProperties type := [type];
  valueDeclaration propertySymbol := Some propertySymbol;
  getTypeOfSymbolAtLocation propertySymbol _ := Pos.succ propertySymbol;
  getTypeAtLocation _ := 1%positive
|}.

Definition nestedBoxesServices : Services := {|
  checker := nestedBoxes;
  esTreeNodeToTSNodeMap argument := ESTree.id argument
|}.

Definition nestedBoxesCall : ESTree.CallExpressionNode :=
  Fixture.memberCall "info"
    [ Fixture.arg ESTree.Literal 10; Fixture.arg ESTree.ObjectExpression 11 ].

(** [logger.info("subscribed", { cb })] with [cb : Handler] and
    [type Handler = () => void]: the function type is rendered by the name
    of its alias. *)
Definition handlerAlias : Fixture.Host := {|
  Fixture.typeTable := list_to_map
    [ (1%positive, Fixture.object "{ cb: Handler; }" [1%positive]);
      (2%positive, ("Handler", Fixture.ObjectOf [1%positive] [] None [])) ];
  Fixture.symbolTable := list_to_map [ (1%positive, 2%positive) ];
  Fixture.nodeTable := list_to_map [ (11%positive, 1%positive) ]
|}.

Definition handlerAliasCall : ESTree.CallExpressionNode :=
  Fixture.memberCall "info"
    [ Fixture.arg ESTree.Literal 10; Fixture.arg ESTree.ObjectExpression 11 ].

(** An object type with a declared property [id : number] and a property
    [flags] that has no value declaration. *)
Definition mappedRecord : Fixture.Host := {|
  Fixture.typeTable := list_to_map
    [ (1%positive, Fixture.object "{ id: number; flags: ...; }"
                                  [1; 2]%positive);
      (2%positive, ("number", Fixture.Opaque)) ];
  Fixture.symbolTable := list_to_map [ (1%positive, 2%positive) ];
  Fixture.nodeTable := ∅
|}.

(** ** Properties of the model *)

Local Close Scope Z_scope.
#[local] Set Warnings "-clear-no-such-hyp".

(** *** Canonical names *)

Section Names.

Local Open Scope Z_scope.

(** Move boolean comparisons on code units to [Prop] and finish with
    linear arithmetic. *)
Ltac bool_lia :=
  repeat match goal with
         | H : _ && _ = true |- _ => apply andb_true_iff in H; destruct H
         | H : _ || _ = false |- _ => apply orb_false_iff in H; destruct H
         | H : (_ <=? _) = true |- _ => apply Z.leb_le in H
         | H : (_ <=? _) = false |- _ => apply Z.leb_gt in H
         | H : (_ =? _) = true |- _ => apply Z.eqb_eq in H
         | H : (_ =? _) = false |- _ => apply Z.eqb_neq in H
         end;
  repeat match goal with
         | |- _ || _ = false => apply orb_false_iff; split
         | |- _ && _ = false => apply andb_false_iff
         | |- (_ =? _) = false => apply Z.eqb_neq
         end;
  try assumption; try lia;
  try (first [ left; apply Z.leb_gt; lia | right; apply Z.leb_gt; lia ]).

Lemma isUpper_not_numericStart c :
  JS.isUpper c = true -> numericStart c = false.
Proof.
  unfold JS.isUpper, numericStart, JS.isWhiteSpace, JS.isDecimalDigit.
  set (n := JS.code c). intros H. bool_lia.
Qed.

Lemma trimEnd_cons c r :
  JS.isWhiteSpace c = false ->
  JS.trimEnd (String c r) = String c (JS.trimEnd r).
Proof. intros H. cbn [JS.trimEnd]. now rewrite H. Qed.

Lemma trim_cons c r :
  JS.isWhiteSpace c = false ->
  JS.trim (String c r) = String c (JS.trimEnd r).
Proof.
  intros H. unfold JS.trim. cbn [JS.trimStart]. rewrite H.
  now apply trimEnd_cons.
Qed.

(** A string that begins with no such code unit converts to NaN, or to
    an infinity when it is [Infinity]: never to an integer. *)
Lemma StringToNumber_not_integer c r :
  numericStart c = false ->
  JS.isInteger (JS.StringToNumber (String c r)) = false.
Proof.
  unfold numericStart. intros H.
  assert (Hws : JS.isWhiteSpace c = false) by bool_lia.
  assert (Hdigit : JS.isDecimalDigit c = false) by bool_lia.
  assert (Hplus : (JS.code c =? 43) = false) by bool_lia.
  assert (Hminus : (JS.code c =? 45) = false) by bool_lia.
  assert (Hdot : (JS.code c =? 46) = false) by bool_lia.
  assert (Hzero : (JS.code c =? 48) = false).
  { unfold JS.isDecimalDigit in Hdigit. apply Z.eqb_neq. intros E.
    rewrite E in Hdigit. discriminate. }
  unfold JS.StringToNumber. rewrite (trim_cons c r Hws).
  rewrite Hplus, Hminus.
  assert (Hbase : JS.nonDecimalBase (String c (JS.trimEnd r)) = None).
  { unfold JS.nonDecimalBase. destruct (JS.trimEnd r); [reflexivity|].
    now rewrite Hzero. }
  rewrite Hbase. unfold JS.StrUnsignedDecimalLiteral.
  destruct (String.eqb _ "Infinity"); [reflexivity|].
  unfold JS.parseDecimal. cbn [JS.span]. rewrite Hdigit, Hdot.
  reflexivity.
Qed.

Lemma sliceInit_cons c d r :
  JS.sliceInit (String c (String d r)) = String c (JS.sliceInit (String d r)).
Proof. reflexivity. Qed.

Lemma isBigIntLiteralTypeName_start c r :
  numericStart c = false ->
  isBigIntLiteralTypeName (String c r) = false.
Proof.
  intros H. unfold isBigIntLiteralTypeName.
  destruct (negb (JS.endsWith (String c r) "n")); [reflexivity|].
  destruct r as [|d r]; [reflexivity|].
  rewrite sliceInit_cons.
  destruct (_ || _); [reflexivity|].
  now apply StringToNumber_not_integer.
Qed.

Lemma has_In set x : has set x = true <-> In x set.
Proof.
  unfold has. rewrite existsb_exists. split.
  - intros (y & Hy & Heq). apply String.eqb_eq in Heq. now subst.
  - intros Hx. exists x. split; [assumption | apply String.eqb_refl].
Qed.

Lemma has_not_In set x : has set x = false <-> ~ In x set.
Proof.
  rewrite <- has_In. destruct (has set x); split; congruence.
Qed.

(** A capitalised word that is not on the denylist is settled by its
    name: serializable. *)
Lemma nameVerdict_type_parameter typeName :
  isLikelyTypeParameterName typeName = true ->
  ~ In typeName NON_SERIALIZABLE_TYPE_NAMES ->
  nameVerdict typeName = Some true.
Proof.
  intros Hlike Hdeny. unfold nameVerdict.
  apply has_not_In in Hdeny. rewrite Hdeny, Hlike.
  destruct typeName as [|c r]; [discriminate|].
  cbn [isLikelyTypeParameterName] in Hlike.
  apply andb_true_iff in Hlike as [Hupper _].
  rewrite (isBigIntLiteralTypeName_start c r)
    by now apply isUpper_not_numericStart.
  cbn [orb]. now rewrite !orb_true_r.
Qed.

(** The rendering of an anonymous object type begins with a brace; such
    a name is never settled as non-serializable. *)
Lemma nameVerdict_object_literal typeName :
  JS.startsWith typeName "{" = true ->
  nameVerdict typeName <> Some false.
Proof.
  intros Hstart. destruct typeName as [|c r]; [discriminate|].
  unfold JS.startsWith in Hstart. cbn [String.prefix] in Hstart.
  destruct (ascii_dec "{" c) as [<-|Hne]; [|discriminate].
  unfold nameVerdict.
  rewrite (isBigIntLiteralTypeName_start "{" r) by reflexivity.
  replace (has NON_SERIALIZABLE_TYPE_NAMES (String "{" r)) with false
    by reflexivity.
  cbn [orb]. repeat destruct (_ || _); discriminate.
Qed.

(** A string that begins with no code unit of a numeric literal converts
    to NaN, or to an infinity when it is [Infinity]: never to a finite
    number. *)
Lemma StringToNumber_not_finite c r :
  numericStart c = false ->
  JS.isFinite (JS.StringToNumber (String c r)) = false.
Proof.
  unfold numericStart. intros H.
  assert (Hws : JS.isWhiteSpace c = false) by bool_lia.
  assert (Hdigit : JS.isDecimalDigit c = false) by bool_lia.
  assert (Hplus : (JS.code c =? 43) = false) by bool_lia.
  assert (Hminus : (JS.code c =? 45) = false) by bool_lia.
  assert (Hdot : (JS.code c =? 46) = false) by bool_lia.
  assert (Hzero : (JS.code c =? 48) = false).
  { unfold JS.isDecimalDigit in Hdigit. apply Z.eqb_neq. intros E.
    rewrite E in Hdigit. discriminate. }
  unfold JS.StringToNumber. rewrite (trim_cons c r Hws).
  rewrite Hplus, Hminus.
  assert (Hbase : JS.nonDecimalBase (String c (JS.trimEnd r)) = None).
  { unfold JS.nonDecimalBase. destruct (JS.trimEnd r); [reflexivity|].
    now rewrite Hzero. }
  rewrite Hbase. unfold JS.StrUnsignedDecimalLiteral.
  destruct (String.eqb _ "Infinity"); [reflexivity|].
  unfold JS.parseDecimal. cbn [JS.span]. rewrite Hdigit, Hdot.
  reflexivity.
Qed.

(** The rendering of an instantiation of the generic interface [box]
    begins with its name; no name rule settles such a name. *)
Lemma nameVerdict_box r :
  nameVerdict (String "b" (String "o" (String "x" r))) = None.
Proof.
  unfold nameVerdict.
  rewrite (isBigIntLiteralTypeName_start "b") by reflexivity.
  replace (has NON_SERIALIZABLE_TYPE_NAMES _) with false by reflexivity.
  replace (isLikelyTypeParameterName _) with false by reflexivity.
  replace (has JSON_LITERAL_PRIMITIVE_NAMES _) with false by reflexivity.
  replace (has JSON_PRIMITIVE_NAMES _) with false by reflexivity.
  replace (isStringLiteralTypeName _) with false
    by (unfold isStringLiteralTypeName; now rewrite andb_false_r).
  unfold isNumericLiteralTypeName.
  rewrite (StringToNumber_not_finite "b") by reflexivity.
  replace (String.eqb _ "any") with false by reflexivity.
  replace (String.eqb _ "never") with false by reflexivity.
  replace (String.eqb _ "unknown") with false by reflexivity.
  cbn [orb]. now destruct (_ || _).
Qed.

End Names.

Section Classification.

Variable checker : TypeChecker.

Lemma every_singleton {A : Type} (f : A -> Seen -> Outcome) x seen :
  every f [x] seen = f x seen.
Proof.
  simpl. destruct (f x seen) as [[[] s]|]; reflexivity.
Qed.

Lemma omap_propertyType_cons sym rest :
  omap (propertyType checker) (sym :: rest) =
  match valueDeclaration checker sym with
  | Some declaration =>
      getTypeOfSymbolAtLocation checker sym declaration
        :: omap (propertyType checker) rest
  | None => omap (propertyType checker) rest
  end.
Proof.
  change (omap (propertyType checker) (sym :: rest))
    with (match propertyType checker sym with
          | Some y => y :: omap (propertyType checker) rest
          | None => omap (propertyType checker) rest
          end).
  unfold propertyType at 1.
  destruct (valueDeclaration checker sym); reflexivity.
Qed.

Lemma every_properties (f : TsType -> Seen -> Outcome) symbols seen :
  every
    (fun propertySymbol seen =>
       match valueDeclaration checker propertySymbol with
       | None => Some (true, seen)
       | Some declaration =>
           f (getTypeOfSymbolAtLocation checker propertySymbol declaration)
             seen
       end) symbols seen
  = every f (omap (propertyType checker) symbols) seen.
Proof.
  revert seen. induction symbols as [|sym rest IH]; intros seen; [reflexivity|].
  rewrite omap_propertyType_cons. cbn [every].
  destruct (valueDeclaration checker sym) as [decl|].
  - cbn [every]. destruct (f _ seen) as [[[] s]|]; auto.
  - apply IH.
Qed.

(** One unfolding of the source function, read through [classify]. *)
Lemma isJsonSerializableType_step fuel type seen :
  isJsonSerializableType (S fuel) checker type seen =
  if bool_decide (type ∈ seen) then Some (true, seen)
  else
    match classify checker type with
    | Reject => Some (false, {[type]} ∪ seen)
    | Accept => Some (true, {[type]} ∪ seen)
    | Recurse components =>
        every (isJsonSerializableType fuel checker) components
              ({[type]} ∪ seen)
    end.
Proof.
  cbn [isJsonSerializableType].
  destruct (bool_decide (type ∈ seen)); [reflexivity|].
  unfold classify, nameVerdict, canonicalName.
  set (typeName := JS.trim (typeToString checker type)).
  destruct (has NON_SERIALIZABLE_TYPE_NAMES typeName
            || isBigIntLiteralTypeName typeName); [reflexivity|].
  destruct (String.eqb typeName "any" || String.eqb typeName "never"
            || String.eqb typeName "unknown"
            || isLikelyTypeParameterName typeName); [reflexivity|].
  destruct (has JSON_LITERAL_PRIMITIVE_NAMES typeName
            || isStringLiteralTypeName typeName
            || isNumericLiteralTypeName typeName); [reflexivity|].
  destruct (has JSON_PRIMITIVE_NAMES typeName); [reflexivity|].
  unfold structuralStep, hasSignatures, canonicalName. fold typeName.
  destruct (isUnion checker type); [reflexivity|].
  destruct (isIntersection checker type); [reflexivity|].
  destruct (isTupleType checker type); [reflexivity|].
  destruct (isArrayType checker type).
  { destruct (getTypeArguments checker type); [reflexivity|].
    symmetry. apply every_singleton. }
  destruct (_ || _); [reflexivity|].
  destruct (getStringIndexType checker type).
  { symmetry. apply every_singleton. }
  destruct (_ && _); [reflexivity|].
  apply every_properties.
Qed.

(** *** [every] with a threaded visited set *)

Lemma every_invariant {A : Type} (f : A -> Seen -> Outcome)
    (I : Seen -> Prop) elements seen :
  I seen ->
  (forall x s, x ∈ elements -> I s -> exists b s', f x s = Some (b, s') /\ I s') ->
  exists b s', every f elements seen = Some (b, s') /\ I s'.
Proof.
  revert seen. induction elements as [|x rest IH]; intros seen HI Hf.
  - exists true, seen. split; [reflexivity | assumption].
  - destruct (Hf x seen) as (b & s' & Hx & HI'); [left | assumption |].
    cbn [every]. rewrite Hx. destruct b.
    + apply IH; [assumption|]. intros y s Hy. apply Hf. now right.
    + exists false, s'. split; [reflexivity | assumption].
Qed.

Lemma every_mono {A : Type} (f g : A -> Seen -> Outcome) elements :
  (forall x s r, x ∈ elements -> f x s = Some r -> g x s = Some r) ->
  forall seen r, every f elements seen = Some r -> every g elements seen = Some r.
Proof.
  induction elements as [|x rest IH]; intros Hfg seen r; [trivial|].
  cbn [every]. destruct (f x seen) as [[b s]|] eqn:Hx; [|discriminate].
  rewrite (Hfg x seen (b, s)); [|left|assumption].
  destruct b; [|trivial].
  apply IH. intros y s0 r0 Hy. apply Hfg. now right.
Qed.

(** When [every] answers [true], every callback answered [true]. *)
Lemma every_true_invariant {A : Type} (f : A -> Seen -> Outcome)
    (I : Seen -> Prop) (Q : A -> Seen -> Prop) elements :
  (forall x s s', Q x s -> s ⊆ s' -> Q x s') ->
  (forall x s s', x ∈ elements -> I s -> f x s = Some (true, s') ->
                  I s' /\ Q x s' /\ s ⊆ s') ->
  forall seen seen',
    I seen -> every f elements seen = Some (true, seen') ->
    I seen' /\ (forall x, x ∈ elements -> Q x seen') /\ seen ⊆ seen'.
Proof.
  intros HQ. induction elements as [|x rest IH]; intros Hf seen seen' HI Hev.
  - injection Hev as <-. split; [assumption|]. split; [|reflexivity].
    intros x Hx. inversion Hx.
  - cbn [every] in Hev.
    destruct (f x seen) as [[[] s]|] eqn:Hx; try discriminate.
    destruct (Hf x seen s) as (HIs & HQs & Hsub); [left | assumption.. |].
    destruct (IH (fun y a b Hy => Hf y a b (list_elem_of_further _ _ _ Hy))
                 s seen' HIs Hev) as (HI' & HQ' & Hsub').
    split; [assumption|]. split; [|etrans; eassumption].
    intros y Hy. apply elem_of_cons in Hy as [->|Hy]; [|now apply HQ'].
    eapply HQ; eassumption.
Qed.

(** *** Fuel: more never changes an answer *)

Lemma isJsonSerializableType_fuel_mono fuel fuel' type seen r :
  fuel <= fuel' ->
  isJsonSerializableType fuel checker type seen = Some r ->
  isJsonSerializableType fuel' checker type seen = Some r.
Proof.
  revert fuel' type seen r.
  induction fuel as [|fuel IH]; intros fuel' type seen r Hle Hrun;
    [discriminate|].
  destruct fuel' as [|fuel']; [lia|].
  rewrite isJsonSerializableType_step in *.
  destruct (bool_decide (type ∈ seen)); [assumption|].
  destruct (classify checker type) as [| |components]; try assumption.
  eapply every_mono; [|eassumption].
  intros x s r0 _. apply IH. lia.
Qed.

(** *** Termination on a finite type graph *)

Section Finite.

Variable root : TsType.
Variable universe : gset TsType.
Hypothesis reachable_in_universe :
  forall d, reach checker root d -> d ∈ universe.

Lemma isJsonSerializableType_total fuel type seen :
  reach checker root type ->
  size (universe ∖ seen) < fuel ->
  exists b seen',
    isJsonSerializableType fuel checker type seen = Some (b, seen')
    /\ seen ⊆ seen' /\ seen' ⊆ seen ∪ universe /\ type ∈ seen'.
Proof.
  revert type seen.
  induction fuel as [|fuel IH]; intros type seen Hreach Hsize; [lia|].
  rewrite isJsonSerializableType_step.
  case_bool_decide as Hseen.
  { exists true, seen.
    split; [reflexivity|]. split; [reflexivity|].
    split; [apply union_subseteq_l | assumption]. }
  assert (Hin : type ∈ universe) by now apply reachable_in_universe.
  assert (Hless : size (universe ∖ ({[type]} ∪ seen)) < fuel).
  { assert (size (universe ∖ ({[type]} ∪ seen)) < size (universe ∖ seen));
      [|lia].
    apply subset_size. set_solver. }
  destruct (classify checker type) as [| |components] eqn:Hclass.
  - exists false, ({[type]} ∪ seen).
    split; [reflexivity|]. clear IH. set_solver.
  - exists true, ({[type]} ∪ seen).
    split; [reflexivity|]. clear IH. set_solver.
  - destruct (every_invariant (isJsonSerializableType fuel checker)
                (fun s => {[type]} ∪ seen ⊆ s /\ s ⊆ seen ∪ universe)
                components ({[type]} ∪ seen)) as (b & s' & Hev & Hs1 & Hs2).
    + set_solver.
    + intros x s Hx [Hs1 Hs2].
      destruct (IH x s) as (b & s' & Hrun & Ha & Hb & _).
      * eapply rtc_r; [eassumption|]. exists components. now split.
      * assert (size (universe ∖ s) <= size (universe ∖ ({[type]} ∪ seen)));
          [|lia].
        apply subseteq_size. set_solver.
      * exists b, s'. split; [assumption|]. set_solver.
    + exists b, s'. split; [assumption|]. set_solver.
Qed.

End Finite.

(** *** What a verdict means

    A top-level verdict is [false] exactly when the classifier can
    descend from the root to a rejected type. *)

Lemma true_settles fuel type (S G S' : gset TsType) :
  settled checker S G ->
  isJsonSerializableType fuel checker type S = Some (true, S') ->
  settled checker S' G /\ type ∈ S' /\ S ⊆ S'.
Proof.
  revert type S G S'.
  induction fuel as [|fuel IH]; intros type S G S' Hset Hrun; [discriminate|].
  rewrite isJsonSerializableType_step in Hrun.
  case_bool_decide as Hseen.
  { injection Hrun as <-. split; [assumption|]. split; [assumption|reflexivity]. }
  destruct (classify checker type) as [| |components] eqn:Hclass.
  - discriminate.
  - injection Hrun as <-. split; [|split; set_solver].
    intros x Hx Hng. apply elem_of_union in Hx as [Hx|Hx].
    + apply elem_of_singleton in Hx as ->. split; [congruence|].
      intros d (cs & Hcs & _). congruence.
    + destruct (Hset x Hx Hng) as [Hrej Hedges]. split; [assumption|].
      intros d Hd. apply elem_of_union_r. now apply Hedges.
  - assert (Hset1 : settled checker ({[type]} ∪ S) ({[type]} ∪ G)).
    { intros x Hx Hng. apply elem_of_union in Hx as [Hx|Hx]; [set_solver|].
      destruct (Hset x Hx) as [Hrej Hedges]; [set_solver|].
      split; [assumption|]. intros d Hd. apply elem_of_union_r. now apply Hedges. }
    destruct (every_true_invariant (isJsonSerializableType fuel checker)
                (fun s => settled checker s ({[type]} ∪ G))
                (fun x (s : Seen) => x ∈ s) components)
      with (seen := {[type]} ∪ S) (seen' := S')
      as (Hset' & Hall & Hsub); try assumption.
    { intros x s s' Hx Hss. now apply Hss. }
    { intros x s s' _ Hs Hx. eapply IH; eassumption. }
    split; [|split; set_solver].
    intros x Hx Hng. destruct (decide (x = type)) as [->|Hne].
    + split; [congruence|]. intros d (cs & Hcs & Hd).
      rewrite Hclass in Hcs. injection Hcs as <-. now apply Hall.
    + apply Hset'; [assumption | set_solver].
Qed.

Lemma settled_closed (S : gset TsType) t d :
  settled checker S ∅ -> t ∈ S -> reach checker t d ->
  d ∈ S /\ classify checker d <> Reject.
Proof.
  intros Hset Ht Hreach. induction Hreach as [t|t m d Hedge _ IH].
  - split; [assumption|]. now apply (Hset t).
  - apply IH. apply (Hset t Ht); [set_solver | assumption].
Qed.

Lemma every_all_true {A : Type} (f : A -> Seen -> Outcome) elements :
  (forall x s b s', x ∈ elements -> f x s = Some (b, s') -> b = true) ->
  forall seen b seen', every f elements seen = Some (b, seen') -> b = true.
Proof.
  induction elements as [|x rest IH]; intros Hf seen b seen' Hev.
  - now injection Hev as <- _.
  - cbn [every] in Hev. destruct (f x seen) as [[bx s]|] eqn:Hx; [|discriminate].
    assert (bx = true) as -> by (eapply Hf; [left | eassumption]).
    eapply IH; [|eassumption]. intros y s0 b0 s0' Hy. apply Hf. now right.
Qed.

Lemma unrejected_true fuel type seen b seen' :
  (forall d, reach checker type d -> classify checker d <> Reject) ->
  isJsonSerializableType fuel checker type seen = Some (b, seen') ->
  b = true.
Proof.
  revert type seen b seen'.
  induction fuel as [|fuel IH]; intros type seen b seen' Hok Hrun; [discriminate|].
  rewrite isJsonSerializableType_step in Hrun.
  case_bool_decide as Hseen; [now injection Hrun as <- _|].
  destruct (classify checker type) as [| |components] eqn:Hclass.
  - exfalso. apply (Hok type); [apply rtc_refl | assumption].
  - now injection Hrun as <- _.
  - eapply every_all_true; [|eassumption].
    intros x s bx s' Hx. apply IH. intros d Hd. apply Hok.
    eapply rtc_l; [|eassumption]. exists components. now split.
Qed.

(** The meaning of a verdict from a fresh visited set. *)
Lemma verdict_reach fuel root b :
  verdict fuel checker root = Some b ->
  b = true <-> forall d, reach checker root d -> classify checker d <> Reject.
Proof.
  unfold verdict. intros Hv.
  destruct (isJsonSerializableType fuel checker root ∅) as [[b' S']|] eqn:Hrun;
    [|discriminate].
  injection Hv as ->. split.
  - intros ->. intros d Hd.
    destruct (true_settles fuel root ∅ ∅ S') as (Hset & Hin & _);
      [intros x Hx; set_solver | assumption |].
    now apply (settled_closed S' root d).
  - intros Hok. eapply unrejected_true; eassumption.
Qed.

End Classification.

(** *** Hosts given by tables are finite *)

Lemma edge_component checker t d :
  edge checker t d -> component checker t d.
Proof.
  intros (components & Hclass & Hd). unfold classify in Hclass.
  destruct (nameVerdict _) as [[]|]; try discriminate.
  unfold structuralStep in Hclass. unfold component.
  destruct (isUnion checker t); [injection Hclass as <-; auto|].
  destruct (isIntersection checker t); [injection Hclass as <-; auto|].
  destruct (isTupleType checker t); [injection Hclass as <-; auto|].
  destruct (isArrayType checker t).
  { destruct (getTypeArguments checker t) as [|elementType rest];
      [discriminate|].
    injection Hclass as <-. apply list_elem_of_singleton in Hd as ->.
    right. left. left. }
  destruct (hasSignatures checker t); [discriminate|].
  destruct (getStringIndexType checker t) as [stringIndexType|].
  { injection Hclass as <-. apply list_elem_of_singleton in Hd as ->. auto. }
  destruct (_ && _); [discriminate|]. injection Hclass as <-.
  apply list_elem_of_omap in Hd. auto.
Qed.

Lemma Fixture_component_mentioned host t d :
  component (Fixture.checkerOf host) t d -> d ∈ Fixture.mentioned host.
Proof.
  unfold component, propertyType. cbn. unfold Fixture.shapeOf.
  intros Hcomponent.
  destruct (Fixture.typeTable host !! t) as [[rendering shape]|] eqn:Hentry.
  - assert (Hshape : forall x, x ∈ Fixture.shapeTypes shape ->
                               x ∈ Fixture.mentioned host).
    { intros x Hx. apply elem_of_union_l, elem_of_list_to_set.
      apply list_elem_of_bind. exists (t, (rendering, shape)).
      split; [assumption|]. now apply elem_of_map_to_list. }
    destruct Hcomponent as [Hd|[Hd|[Hd|(sym & _ & Hd)]]].
    + destruct shape; try (now apply Hshape); inversion Hd.
    + destruct shape; try (now apply Hshape); inversion Hd.
    + destruct shape; try discriminate. apply Hshape. cbn.
      rewrite Hd. left.
    + destruct (Fixture.symbolTable host !! sym) as [declared|] eqn:Hdeclared;
        [|discriminate].
      injection Hd as <-. apply elem_of_union_r.
      eapply elem_of_map_img_2. eassumption.
  - destruct Hcomponent as [Hd|[Hd|[Hd|(sym & _ & Hd)]]];
      [inversion Hd | inversion Hd | discriminate |].
    destruct (Fixture.symbolTable host !! sym) as [declared|] eqn:Hdeclared;
      [|discriminate].
    injection Hd as <-. apply elem_of_union_r.
    eapply elem_of_map_img_2. eassumption.
Qed.

Lemma Fixture_edge_mentioned host t d :
  edge (Fixture.checkerOf host) t d -> d ∈ Fixture.mentioned host.
Proof.
  intros Hedge. eapply Fixture_component_mentioned, edge_component, Hedge.
Qed.

Lemma Fixture_reach_universe host root d :
  reach (Fixture.checkerOf host) root d -> d ∈ Fixture.universe host root.
Proof.
  intros Hreach. unfold Fixture.universe.
  apply rtc_inv_r in Hreach as [->|(m & _ & Hedge)].
  - apply elem_of_union_l. now apply elem_of_singleton.
  - apply elem_of_union_r. eapply Fixture_edge_mentioned. eassumption.
Qed.

(** *** The call-site selector and the visitor *)

Lemma isContextLiteralExpression_spec argument :
  isContextLiteralExpression argument = true <->
  literalShaped (ESTree.type argument).
Proof.
  unfold isContextLiteralExpression, literalShaped.
  destruct (ESTree.type argument); cbn; intuition congruence.
Qed.

Lemma getLoggerMethod_spec callee method :
  getLoggerMethod callee = Some method <->
  ESTree.callee_type callee = ESTree.MemberExpression /\
  ESTree.computed callee = false /\
  ESTree.property_type (ESTree.property callee) = ESTree.Identifier /\
  ESTree.name (ESTree.property callee) = method /\
  In method LOGGER_METHODS.
Proof.
  unfold getLoggerMethod.
  destruct (has LOGGER_METHODS (ESTree.name (ESTree.property callee))) eqn:Hhas;
    destruct (ESTree.callee_type callee), (ESTree.computed callee),
      (ESTree.property_type (ESTree.property callee));
    cbn -[In LOGGER_METHODS];
    try (split; [discriminate | intros (? & ? & ? & _); discriminate]).
  - apply has_In in Hhas. split.
    + intros [= Heq]. subst method. auto.
    + intros (_ & _ & _ & Heq & _). now subst method.
  - apply has_not_In in Hhas. split; [discriminate|].
    intros (_ & _ & _ & Heq & Hin). subst method. contradiction.
Qed.

(** The visitor, read through the selector. *)
Lemma CallExpression_selected fuel services node :
  CallExpression fuel services node =
  match selectContextArgument node with
  | None => Some []
  | Some contextArg =>
      match verdict fuel (checker services) (resolveType services contextArg) with
      | None => None
      | Some true => Some []
      | Some false =>
          Some [report (ESTree.name (ESTree.property (ESTree.callee node)))
                       contextArg]
      end
  end.
Proof.
  unfold CallExpression, selectContextArgument, verdict, resolveType, report.
  destruct (getLoggerMethod (ESTree.callee node)) as [method|] eqn:Hmethod;
    [|reflexivity].
  apply getLoggerMethod_spec in Hmethod as (_ & _ & _ & Heq & _).
  subst method.
  destruct (_ <? 2)%nat; [reflexivity|].
  destruct (getContextArgumentForMethod _ node); [|reflexivity].
  destruct (isJsonSerializableType _ _ _ _) as [[[] ?]|]; reflexivity.
Qed.

(** *** Leaves, growth of the visited set, and fresh verdicts *)

Lemma every_accepts {A : Type} (f : A -> Seen -> Outcome) elements :
  (forall x s, x ∈ elements -> exists s', f x s = Some (true, s')) ->
  forall seen, exists seen', every f elements seen = Some (true, seen').
Proof.
  induction elements as [|x rest IH]; intros Hf seen.
  - now exists seen.
  - destruct (Hf x seen) as [s Hx]; [left|].
    cbn [every]. rewrite Hx. apply IH. intros y s0 Hy. apply Hf. now right.
Qed.

(** A type settled by its name is a leaf of the classification. *)
Lemma settled_by_name checker fuel type seen b :
  nameVerdict (canonicalName checker type) = Some b ->
  exists seen',
    isJsonSerializableType (S fuel) checker type seen = Some (b || bool_decide (type ∈ seen), seen').
Proof.
  intros Hname. rewrite isJsonSerializableType_step.
  case_bool_decide.
  - exists seen. now rewrite orb_true_r.
  - unfold classify. rewrite Hname, orb_false_r.
    destruct b; eauto.
Qed.

Lemma every_grows {A : Type} (f : A -> Seen -> Outcome) elements :
  (forall x s b s', x ∈ elements -> f x s = Some (b, s') -> s ⊆ s') ->
  forall seen b seen', every f elements seen = Some (b, seen') -> seen ⊆ seen'.
Proof.
  induction elements as [|x rest IH]; intros Hf seen b seen' Hev.
  - now injection Hev as _ <-.
  - cbn [every] in Hev.
    destruct (f x seen) as [[bx s]|] eqn:Hx; [|discriminate].
    assert (seen ⊆ s) by (eapply Hf; [left | eassumption]).
    destruct bx.
    + etrans; [eassumption|]. eapply IH; [|eassumption].
      intros y s0 b0 s0' Hy. apply Hf. now right.
    + now injection Hev as _ <-.
Qed.

Lemma isJsonSerializableType_grows checker fuel type seen b seen' :
  isJsonSerializableType fuel checker type seen = Some (b, seen') ->
  seen ⊆ seen'.
Proof.
  revert type seen b seen'.
  induction fuel as [|fuel IH]; intros type seen b seen' Hrun; [discriminate|].
  rewrite isJsonSerializableType_step in Hrun.
  case_bool_decide; [now injection Hrun as _ <-|].
  destruct (classify checker type) as [| |components].
  - injection Hrun as _ <-. apply union_subseteq_r.
  - injection Hrun as _ <-. apply union_subseteq_r.
  - etrans; [apply (union_subseteq_r {[type]})|].
    eapply every_grows; [|eassumption].
    intros x s bx s' _. apply IH.
Qed.

(** Components that are already visited do not count in [every]. *)
Lemma every_skip_visited checker fuel (type : TsType) components :
  forall seen : Seen,
    type ∈ seen ->
    every (isJsonSerializableType (S fuel) checker) components seen
    = every (isJsonSerializableType (S fuel) checker)
        (filter (fun c => c <> type) components) seen.
Proof.
  induction components as [|x rest IH]; intros seen Hseen; [reflexivity|].
  destruct (decide (x = type)) as [->|Hne].
  - rewrite filter_cons_False by (intros Hne; now apply Hne).
    cbn [every]. rewrite isJsonSerializableType_step.
    case_bool_decide; [|contradiction]. now apply IH.
  - rewrite filter_cons_True by assumption. cbn [every].
    destruct (isJsonSerializableType (S fuel) checker x seen)
      as [[[] s]|] eqn:Hx; try reflexivity.
    apply IH. apply isJsonSerializableType_grows in Hx. now apply Hx.
Qed.

(** Verdicts from a fresh visited set, on a finite type graph. *)

Section FreshVerdicts.

Variable checker : TypeChecker.
Variable root : TsType.
Variable universe : gset TsType.
Variable fuel : nat.
Hypothesis reachable_in_universe :
  forall d, reach checker root d -> d ∈ universe.
Hypothesis enough_fuel : size universe < fuel.

Lemma verdict_total type :
  reach checker root type -> exists b, verdict fuel checker type = Some b.
Proof.
  intros Hreach.
  destruct (isJsonSerializableType_total checker root universe
              reachable_in_universe fuel type ∅ Hreach)
    as (b & seen' & Hrun & _).
  - rewrite difference_empty_L. exact enough_fuel.
  - exists b. unfold verdict. now rewrite Hrun.
Qed.

Lemma verdicts_total components :
  (forall m, m ∈ components -> reach checker root m) ->
  exists bs,
    Forall2 (fun m b => verdict fuel checker m = Some b) components bs.
Proof.
  induction components as [|m rest IH]; intros Hreach.
  - exists []. constructor.
  - destruct (verdict_total m) as [b Hb]; [apply Hreach; left|].
    destruct IH as [bs Hbs]; [intros x Hx; apply Hreach; now right|].
    exists (b :: bs). now constructor.
Qed.

(** The verdict of a type the classifier decomposes is the conjunction of
    the verdicts its components get on their own, each from a fresh
    visited set. *)
Lemma verdict_components type components :
  reach checker root type ->
  classify checker type = Recurse components ->
  exists bs,
    Forall2 (fun m b => verdict fuel checker m = Some b) components bs
    /\ verdict fuel checker type = Some (forallb id bs).
Proof.
  intros Hreach Hclass.
  assert (Hedge : forall m, m ∈ components -> edge checker type m).
  { intros m Hm. exists components. now split. }
  destruct (verdicts_total components) as [bs Hbs].
  { intros m Hm. eapply rtc_r; [eassumption | now apply Hedge]. }
  exists bs. split; [assumption|].
  destruct (verdict_total type Hreach) as [b Hb]. rewrite Hb. f_equal.
  apply eq_true_iff_eq. rewrite (verdict_reach checker fuel type b Hb).
  rewrite forallb_forall. split.
  - intros Hok bm Hbm. unfold id.
    apply list_elem_of_In in Hbm.
    apply list_elem_of_lookup in Hbm as [i Hi].
    destruct (Forall2_lookup_r _ _ _ _ _ Hbs Hi) as (m & Hm & Hverdict).
    apply (verdict_reach checker fuel m bm Hverdict).
    intros d Hd. apply Hok. eapply rtc_l; [|eassumption].
    apply Hedge. eapply list_elem_of_lookup_2. eassumption.
  - intros Hall d Hd. apply rtc_inv in Hd as [<-|(m & (cs & Hcs & Hm) & Hd)].
    + congruence.
    + assert (cs = components) as -> by congruence.
      apply list_elem_of_lookup in Hm as [i Hi].
      destruct (Forall2_lookup_l _ _ _ _ _ Hbs Hi) as (bm & Hbm & Hverdict).
      assert (bm = true) as ->.
      { apply (Hall bm). apply list_elem_of_In.
        eapply list_elem_of_lookup_2. eassumption. }
      now apply (verdict_reach checker fuel m true Hverdict).
Qed.

End FreshVerdicts.

Lemma reachesIndexStep_classify checker type stringIndexType :
  reachesIndexStep checker type ->
  getStringIndexType checker type = Some stringIndexType ->
  classify checker type = Recurse [stringIndexType].
Proof.
  intros [(Hname & Hunion & Hinter & Htuple & Harray) Hsig] Hindex.
  unfold classify, structuralStep.
  now rewrite Hname, Hunion, Hinter, Htuple, Harray, Hsig, Hindex.
Qed.

Lemma nonSerializableValue_rejected checker type :
  nonSerializableValue checker type -> classify checker type = Reject.
Proof.
  unfold nonSerializableValue, classify, nameVerdict.
  intros [Hname|[Hbigint|[(Hname & Hunion & Hinter & Htuple & Harray) Hsig]]].
  - replace (has NON_SERIALIZABLE_TYPE_NAMES (canonicalName checker type))
      with true; [reflexivity|].
    symmetry. apply has_In. cbn in Hname |- *. intuition.
  - rewrite Hbigint, orb_true_r. reflexivity.
  - unfold nameVerdict in Hname.
    destruct (_ || _); [reflexivity|].
    rewrite Hname. unfold structuralStep.
    now rewrite Hunion, Hinter, Htuple, Harray, Hsig.
Qed.

(** ** The claims *)

(** C4.  The selector yields the argument [a] exactly when the callee is a
    non-computed member access by an identifier named action, debug,
    error, info or warn, the call has at least two arguments, [a] is the
    argument at index 2 (for error) or 1 (for the others), and [a] is an
    array, scalar, object or template literal.  In every other case
    (spread elements and identifiers among them) the visitor reports
    nothing, whatever the checker says and with no classification run. *)
Theorem selector_spec (node : ESTree.CallExpressionNode) :
  (forall a,
     selectContextArgument node = Some a <->
     ESTree.callee_type (ESTree.callee node) = ESTree.MemberExpression /\
     ESTree.computed (ESTree.callee node) = false /\
     ESTree.property_type (ESTree.property (ESTree.callee node))
       = ESTree.Identifier /\
     In (ESTree.name (ESTree.property (ESTree.callee node))) LOGGER_METHODS /\
     2 <= List.length (ESTree.arguments node) /\
     nth_error (ESTree.arguments node)
       (if String.eqb (ESTree.name (ESTree.property (ESTree.callee node))) "error"
        then 2 else 1) = Some a /\
     literalShaped (ESTree.type a))
  /\ (selectContextArgument node = None ->
      forall fuel services, CallExpression fuel services node = Some []).
Proof.
  split.
  - intros a. unfold selectContextArgument, getContextArgumentForMethod.
    destruct (getLoggerMethod (ESTree.callee node)) as [method|] eqn:Hmethod.
    + apply getLoggerMethod_spec in Hmethod as (Htype & Hcomp & Hprop & Heq & Hin).
      subst method.
      destruct (Nat.ltb_spec (List.length (ESTree.arguments node)) 2) as [Hlt|Hge].
      { split; [discriminate|]. intros (_ & _ & _ & _ & Hlen & _). lia. }
      destruct (nth_error _ _) as [candidate|].
      * destruct (isContextLiteralExpression candidate) eqn:Hlit; cbn.
        -- apply isContextLiteralExpression_spec in Hlit. split.
           ++ intros [= Heq]. subst a. auto 10.
           ++ intros (_ & _ & _ & _ & _ & [= Heq] & _). now subst a.
        -- split; [discriminate|].
           intros (_ & _ & _ & _ & _ & [= Heq] & Hshape). subst a.
           apply isContextLiteralExpression_spec in Hshape. congruence.
      * split; [discriminate|]. intros (_ & _ & _ & _ & _ & ? & _). discriminate.
    + split; [discriminate|]. intros (Htype & Hcomp & Hprop & Hin & _).
      assert (getLoggerMethod (ESTree.callee node)
              = Some (ESTree.name (ESTree.property (ESTree.callee node))))
        by (apply getLoggerMethod_spec; auto).
      congruence.
  - intros Hnone fuel services. rewrite CallExpression_selected.
    now rewrite Hnone.
Qed.

Lemma selector_spec_witness :
  selectContextArgument timestampedCall
  = Some (Fixture.arg ESTree.ObjectExpression 11)
  /\ CallExpression 0 (Fixture.servicesOf timestamped) forwardedCall = Some []
  /\ CallExpression 0 (Fixture.servicesOf timestamped) errorSlotCall = Some [].
Proof.
  split; [|split].
  - apply (proj1 (selector_spec timestampedCall)).
    repeat split; try reflexivity.
    + cbn. auto 10.
    + right. right. left. reflexivity.
  - apply (proj2 (selector_spec forwardedCall)). reflexivity.
  - apply (proj2 (selector_spec errorSlotCall)). reflexivity.
Defined.

(** C1.  When the selected context argument resolves to a structural
    object type each of whose own properties has type string, number,
    boolean or null, [isJsonSerializableType] returns true and the visitor
    reports nothing. *)
Theorem plain_json_object_not_reported
    (services : Services) (node : ESTree.CallExpressionNode)
    (contextArg : ESTree.Node) (fuel : nat) :
  selectContextArgument node = Some contextArg ->
  plainJsonObject (checker services) (resolveType services contextArg) ->
  2 <= fuel ->
  (exists seen,
     isJsonSerializableType fuel (checker services)
       (resolveType services contextArg) ∅ = Some (true, seen))
  /\ CallExpression fuel services node = Some [].
Proof.
  intros Hselect Hplain Hfuel.
  set (type := resolveType services contextArg) in *.
  assert (Hrun : exists seen,
             isJsonSerializableType fuel (checker services) type ∅
             = Some (true, seen)).
  { destruct fuel as [|[|fuel]]; [lia..|].
    rewrite isJsonSerializableType_step.
    case_bool_decide as Hseen; [set_solver|].
    unfold classify.
    pose proof (nameVerdict_object_literal _ (plain_rendering _ _ Hplain)) as Hname.
    destruct (nameVerdict _) as [[]|]; [eauto | congruence |].
    unfold structuralStep, hasSignatures.
    rewrite (plain_not_union _ _ Hplain), (plain_not_intersection _ _ Hplain),
      (plain_not_tuple _ _ Hplain), (plain_not_array _ _ Hplain),
      (plain_not_callable _ _ Hplain), (plain_not_constructible _ _ Hplain),
      (plain_not_indexed _ _ Hplain).
    cbn [List.length Nat.ltb Nat.leb orb].
    destruct (getProperties (checker services) type) as [|sym rest] eqn:Hprops.
    - rewrite (plain_empty _ _ Hplain Hprops). cbn. eauto.
    - cbn [List.length Nat.eqb andb]. rewrite <- Hprops.
      apply every_accepts. intros declared s Hdeclared.
      apply list_elem_of_omap in Hdeclared as (sym' & Hsym & Hdeclared).
      destruct (plain_properties _ _ Hplain sym' Hsym) as (d & Hd & Hprim).
      assert (d = declared) as -> by congruence.
      destruct (settled_by_name (checker services) fuel declared s true)
        as [s' Hs'].
      { cbn [In] in Hprim.
        destruct Hprim as [<-|[<-|[<-|[<-|[]]]]]; reflexivity. }
      eauto. }
  split; [assumption|].
  rewrite CallExpression_selected, Hselect. fold type. unfold verdict.
  destruct Hrun as [seen ->]. reflexivity.
Qed.

Lemma statusUpdate_plain :
  plainJsonObject (Fixture.checkerOf statusUpdate) 1%positive.
Proof.
  split; try reflexivity.
  - discriminate.
  - intros sym Hsym. cbn in Hsym.
    apply elem_of_cons in Hsym as [->|Hsym];
      [|apply elem_of_cons in Hsym as [->|Hsym]; [|inversion Hsym]].
    + exists 2%positive. split; [reflexivity|]. cbn. auto.
    + exists 3%positive. split; [reflexivity|]. cbn. auto.
Defined.

Lemma plain_json_object_not_reported_witness :
  (exists seen,
     isJsonSerializableType 2 (Fixture.checkerOf statusUpdate) 1%positive ∅
     = Some (true, seen))
  /\ CallExpression 2 (Fixture.servicesOf statusUpdate) statusUpdateCall = Some [].
Proof.
  apply (plain_json_object_not_reported
           (Fixture.servicesOf statusUpdate) statusUpdateCall
           (Fixture.arg ESTree.ObjectExpression 11) 2).
  - reflexivity.
  - exact statusUpdate_plain.
  - lia.
Defined.

(** C9.  A type not yet visited whose trimmed canonical name matches
    [^[A-Z]\w*$] and is none of the eleven denylisted names is judged
    serializable on the spot: the answer is [true] for every checker, that
    is whatever the members, signatures and properties of the type are,
    one level of recursion suffices, and the visited set gains the type
    alone. *)
Theorem capitalized_name_is_serializable
    (checker : TypeChecker) (type : TsType) (seen : Seen) (fuel : nat) :
  type ∉ seen ->
  isLikelyTypeParameterName (canonicalName checker type) = true ->
  ~ In (canonicalName checker type) NON_SERIALIZABLE_TYPE_NAMES ->
  isJsonSerializableType (S fuel) checker type seen
  = Some (true, {[type]} ∪ seen).
Proof.
  intros Hfresh Hlike Hdeny.
  rewrite isJsonSerializableType_step.
  case_bool_decide; [contradiction|].
  unfold classify.
  now rewrite (nameVerdict_type_parameter _ Hlike Hdeny).
Qed.

Lemma capitalized_name_is_serializable_witness :
  isJsonSerializableType 1 (Fixture.checkerOf bufferHost) 1%positive ∅
  = Some (true, {[1%positive]} ∪ ∅).
Proof.
  apply (capitalized_name_is_serializable
           (Fixture.checkerOf bufferHost) 1%positive ∅ 0).
  - set_solver.
  - reflexivity.
  - cbn. intuition discriminate.
Defined.

(** C3, as the code has it.  For [logger.error("x", err, { cause: err })]
    with [err : Error] the visitor reports nothing: the name [Error] is
    not on the denylist and matches the type parameter pattern, so the
    type is judged serializable before any structural rule is consulted,
    the property [cause] passes, and so does the object type. *)
Theorem error_cause_not_reported
    (services : Services) (node : ESTree.CallExpressionNode)
    (contextArg : ESTree.Node) (fuel : nat) :
  errorCauseCall services node contextArg ->
  2 <= fuel ->
  nameVerdict "Error" = Some true
  /\ verdict fuel (checker services) (resolveType services contextArg)
     = Some true
  /\ CallExpression fuel services node = Some [].
Proof.
  intros Hcall Hfuel.
  split; [reflexivity|].
  assert (Hverdict :
            verdict fuel (checker services) (resolveType services contextArg)
            = Some true).
  { destruct fuel as [|[|fuel]]; [lia..|].
    unfold verdict. rewrite isJsonSerializableType_step.
    case_bool_decide; [set_solver|].
    unfold classify. rewrite (cause_rendering _ _ _ Hcall).
    replace (nameVerdict "{ cause: Error; }") with (@None bool) by reflexivity.
    rewrite (cause_structural _ _ _ Hcall).
    destruct (every_accepts (isJsonSerializableType (S fuel) (checker services))
                (omap (propertyType (checker services))
                   (getProperties (checker services)
                      (resolveType services contextArg))))
      with (seen := ({[resolveType services contextArg]} ∪ ∅ : Seen))
      as [seen' ->]; [|reflexivity].
    intros declared s Hdeclared.
    destruct (settled_by_name (checker services) fuel declared s true)
      as [s' Hs']; [|eauto].
    now rewrite (cause_property _ _ _ Hcall declared Hdeclared). }
  split; [assumption|].
  rewrite CallExpression_selected, (cause_selected _ _ _ Hcall), Hverdict.
  reflexivity.
Qed.

(** The claim, as stated, fails: on this call nothing is reported on
    [{ cause: err }], and [Error] itself is judged serializable, also when
    it exposes no property. *)
Lemma error_cause_counterexample :
  CallExpression 3 (Fixture.servicesOf errorCause) errorCauseCallNode = Some []
  /\ verdict 3 (Fixture.checkerOf errorCause) 2%positive = Some true
  /\ CallExpression 3 (Fixture.servicesOf opaqueErrorCause) errorCauseCallNode
     = Some []
  /\ verdict 3 (Fixture.checkerOf opaqueErrorCause) 2%positive = Some true.
Proof. repeat split; reflexivity. Qed.

Lemma errorCause_scenario :
  errorCauseCall (Fixture.servicesOf errorCause) errorCauseCallNode
    (Fixture.arg ESTree.ObjectExpression 12).
Proof.
  split; try reflexivity.
  intros declared Hdeclared. cbn in Hdeclared.
  apply elem_of_cons in Hdeclared as [->|Hdeclared]; [reflexivity|].
  inversion Hdeclared.
Defined.

Lemma error_cause_not_reported_witness :
  nameVerdict "Error" = Some true
  /\ verdict 3 (Fixture.checkerOf errorCause) 1%positive = Some true
  /\ CallExpression 3 (Fixture.servicesOf errorCause) errorCauseCallNode
     = Some [].
Proof.
  apply (error_cause_not_reported (Fixture.servicesOf errorCause)
           errorCauseCallNode (Fixture.arg ESTree.ObjectExpression 12) 3).
  - exact errorCause_scenario.
  - lia.
Defined.

(** *** Types that unfold without end *)

Lemma boxName_S depth :
  boxName (S depth)
  = String "b" (String "o" (String "x" (String "<"
      (String.append (boxName depth) ">")))).
Proof. reflexivity. Qed.

(** Every type of [nestedBoxes] gets to the property step and has the
    classifier descend to the next instantiation. *)
Lemma nestedBoxes_classify type :
  classify nestedBoxes type = Recurse [Pos.succ type].
Proof.
  destruct (decide (type = 1%positive)) as [->|Hne]; [reflexivity|].
  assert (Hname : exists r,
             canonicalName nestedBoxes type
             = String "b" (String "o" (String "x" r))).
  { destruct (Pos2Nat.is_succ (Pos.pred type)) as [depth Hdepth].
    exists (JS.trimEnd (String "<" (String.append (boxName depth) ">"))).
    unfold canonicalName.
    replace (typeToString nestedBoxes type) with (boxName (S depth)).
    - rewrite boxName_S, trim_cons by reflexivity.
      now rewrite !trimEnd_cons by reflexivity.
    - rewrite <- Hdepth. destruct type; try reflexivity. contradiction. }
  destruct Hname as [r Hname].
  unfold classify. rewrite Hname, nameVerdict_box. reflexivity.
Qed.

(** When every type leads to a type with a greater handle, a call whose
    visited types all lie below its type never returns: each call finds
    its type new and makes one more call. *)
Lemma unbounded_descent (checker : TypeChecker) :
  (forall type, classify checker type = Recurse [Pos.succ type]) ->
  forall fuel type seen,
    (forall visited, visited ∈ seen -> (visited < type)%positive) ->
    isJsonSerializableType fuel checker type seen = None.
Proof.
  intros Hstep fuel.
  induction fuel as [|fuel IH]; intros type seen Hbelow; [reflexivity|].
  rewrite isJsonSerializableType_step.
  case_bool_decide as Hin.
  - apply Hbelow in Hin. lia.
  - rewrite Hstep, every_singleton. apply IH.
    intros visited Hvisited.
    apply elem_of_union in Hvisited as [Hvisited|Hvisited].
    + apply elem_of_singleton in Hvisited as ->. lia.
    + apply Hbelow in Hvisited. lia.
Qed.

Lemma nestedBoxes_never_returns fuel type :
  isJsonSerializableType fuel nestedBoxes type ∅ = None.
Proof.
  apply (unbounded_descent nestedBoxes nestedBoxes_classify).
  intros visited Hvisited. now apply not_elem_of_empty in Hvisited.
Qed.

(** C7.  Termination fails on a type that unfolds without end.  With
    [interface box<T> { inner: box<box<T>> }] and [b : box<number>], the
    call [logger.info("boxes", { b })] has the classifier descend from
    each instantiation of [box] to the next.  Every type it meets is new
    to the visited set, no finite set holds the types it can reach, and
    neither the classification of [box<number>] nor the visitor returns,
    whatever the fuel: the recursion of the source has no end but the
    overflow of the call stack. *)
Theorem nested_generic_never_returns :
  canonicalName nestedBoxes 2%positive = "box<number>"
  /\ (forall type, edge nestedBoxes type (Pos.succ type))
  /\ (forall universe : gset TsType,
        exists d, reach nestedBoxes 1%positive d /\ d ∉ universe)
  /\ (forall fuel,
        isJsonSerializableType fuel nestedBoxes 2%positive ∅ = None)
  /\ (forall fuel,
        CallExpression fuel nestedBoxesServices nestedBoxesCall = None).
Proof.
  assert (Hedge : forall type, edge nestedBoxes type (Pos.succ type)).
  { intros type. exists [Pos.succ type].
    split; [apply nestedBoxes_classify | apply list_elem_of_singleton].
    reflexivity. }
  assert (Hreach : forall d, reach nestedBoxes 1%positive d).
  { intros d. induction d as [|d IH] using Pos.peano_ind.
    - apply rtc_refl.
    - eapply rtc_r; [exact IH | apply Hedge]. }
  split; [reflexivity|]. split; [exact Hedge|]. split; [|split].
  - intros universe. exists (fresh universe).
    split; [apply Hreach | apply is_fresh].
  - intros fuel. apply nestedBoxes_never_returns.
  - intros fuel. unfold CallExpression.
    cbn [getLoggerMethod nestedBoxesCall Fixture.memberCall]. cbn.
    now rewrite nestedBoxes_never_returns.
Qed.

(** X14.  Termination on a finite type graph.  Let the types the
    classifier can
    descend to from the root lie in a finite set [universe].  Then every
    call on such a type, top-level or recursive, returns as soon as the
    fuel exceeds the number of types of [universe] not yet visited: it
    either finds its type in the visited set and returns [true] leaving
    the set as it was, or returns with a strictly larger visited set,
    which never leaves [universe]. *)
Theorem classification_terminates
    (checker : TypeChecker) (root : TsType) (universe : gset TsType)
    (fuel : nat) (type : TsType) (seen : Seen) :
  (forall d, reach checker root d -> d ∈ universe) ->
  reach checker root type ->
  size (universe ∖ seen) < fuel ->
  exists b seen',
    isJsonSerializableType fuel checker type seen = Some (b, seen')
    /\ ((type ∈ seen /\ b = true /\ seen' = seen)
        \/ ((type ∉ seen) /\ seen ⊂ seen'))
    /\ seen' ⊆ seen ∪ universe.
Proof.
  intros Hfinite Hreach Hfuel.
  destruct (isJsonSerializableType_total checker root universe Hfinite
              fuel type seen Hreach Hfuel)
    as (b & seen' & Hrun & Hgrow & Hbound & Hin).
  exists b, seen'. split; [assumption|]. split; [|assumption].
  destruct (decide (type ∈ seen)) as [Hseen|Hfresh].
  - left. split; [assumption|].
    destruct fuel as [|fuel]; [discriminate|].
    rewrite isJsonSerializableType_step in Hrun.
    case_bool_decide; [|contradiction].
    injection Hrun as <- <-. now split.
  - right. split; [assumption|]. set_solver.
Qed.

Lemma classification_terminates_witness :
  exists b seen',
    isJsonSerializableType 5 (Fixture.checkerOf linkedList) 1%positive ∅
    = Some (b, seen')
    /\ ((1%positive ∈ (∅ : Seen) /\ b = true /\ seen' = ∅)
        \/ ((1%positive ∉ (∅ : Seen)) /\ (∅ : Seen) ⊂ seen'))
    /\ seen' ⊆ ∅ ∪ Fixture.universe linkedList 1%positive.
Proof.
  apply (classification_terminates (Fixture.checkerOf linkedList) 1%positive
           (Fixture.universe linkedList 1%positive) 5 1%positive ∅).
  - apply Fixture_reach_universe.
  - apply rtc_refl.
  - vm_compute. lia.
Defined.

(** The claim, as stated, fails: the visited set holds type handles, not
    canonical names.  After [a]'s type [foo] is visited and judged
    serializable, [b]'s type, of the same canonical name, is classified in
    full and judged not serializable. *)
Lemma visited_name_counterexample :
  isJsonSerializableType 2 (Fixture.checkerOf sameName) 2%positive {[1%positive]}
  = Some (true, {[1; 2; 4]}%positive)
  /\ canonicalName (Fixture.checkerOf sameName) 3%positive
     = canonicalName (Fixture.checkerOf sameName) 2%positive
  /\ (exists seen',
        isJsonSerializableType 2 (Fixture.checkerOf sameName) 3%positive
          {[1; 2; 4]}%positive
        = Some (false, seen'))
  /\ verdict 3 (Fixture.checkerOf sameName) 1%positive = Some false.
Proof.
  split; [vm_compute; reflexivity|]. split; [reflexivity|].
  split; [eexists; vm_compute; reflexivity | reflexivity].
Qed.

(** C6, as the code has it.  A type handle that is already in the visited
    set is judged serializable at once: nothing of the type is consulted,
    not even its name, and the visited set stays as it is.  In particular
    a structural type that refers to itself is classified as if the
    self-references were not there. *)
Theorem visited_type_is_serializable
    (checker : TypeChecker) (type : TsType) (seen : Seen) (fuel : nat) :
  (type ∈ seen ->
   isJsonSerializableType (S fuel) checker type seen = Some (true, seen))
  /\ (forall components,
        type ∉ seen ->
        classify checker type = Recurse components ->
        isJsonSerializableType (S (S fuel)) checker type seen
        = every (isJsonSerializableType (S fuel) checker)
            (filter (fun c => c <> type) components) ({[type]} ∪ seen)).
Proof.
  split.
  - intros Hseen. rewrite isJsonSerializableType_step.
    case_bool_decide; [reflexivity | contradiction].
  - intros components Hfresh Hclass.
    rewrite isJsonSerializableType_step.
    case_bool_decide; [contradiction|]. rewrite Hclass.
    apply every_skip_visited. set_solver.
Qed.

Lemma visited_type_is_serializable_witness :
  isJsonSerializableType 1 (Fixture.checkerOf sameName) 5%positive
    {[5%positive]} = Some (true, {[5%positive]})
  /\ isJsonSerializableType 2 (Fixture.checkerOf linkedList) 3%positive
       {[1%positive]}
     = every (isJsonSerializableType 1 (Fixture.checkerOf linkedList))
         (filter (fun c => c <> 3%positive) [4; 1]%positive)
         ({[3%positive]} ∪ {[1%positive]}).
Proof.
  split.
  - apply (visited_type_is_serializable (Fixture.checkerOf sameName)
             5%positive {[5%positive]} 0).
    set_solver.
  - apply (visited_type_is_serializable (Fixture.checkerOf linkedList)
             3%positive {[1%positive]} 0).
    + set_solver.
    + reflexivity.
Defined.

(** C10.  A type that gets to the index signature step and has a string
    index signature is judged exactly as the value type of that
    signature: the call on the type is the call on the value type, with
    the type added to the visited set, and from a fresh visited set the
    two verdicts are equal.  The properties of the type play no part: the
    statement holds whatever [getProperties] answers. *)
Theorem string_index_decides
    (checker : TypeChecker) (type stringIndexType : TsType)
    (fuel : nat) (seen universe : gset TsType) :
  reachesIndexStep checker type ->
  getStringIndexType checker type = Some stringIndexType ->
  (type ∉ seen ->
   isJsonSerializableType (S fuel) checker type seen
   = isJsonSerializableType fuel checker stringIndexType ({[type]} ∪ seen))
  /\ ((forall d, reach checker type d -> d ∈ universe) ->
      size universe < fuel ->
      exists b,
        verdict fuel checker type = Some b
        /\ verdict fuel checker stringIndexType = Some b).
Proof.
  intros Hstep Hindex.
  pose proof (reachesIndexStep_classify _ _ _ Hstep Hindex) as Hclass.
  split.
  - intros Hfresh. rewrite isJsonSerializableType_step.
    case_bool_decide; [contradiction|]. rewrite Hclass.
    apply every_singleton.
  - intros Hfinite Hfuel.
    destruct (verdict_components checker type universe fuel Hfinite Hfuel
                type [stringIndexType] (rtc_refl _ _) Hclass)
      as (bs & Hbs & Hverdict).
    inversion Hbs as [|m b ? bs' Hb Hrest]; subst.
    inversion Hrest; subst.
    exists b. split; [|assumption].
    rewrite Hverdict. cbn. now rewrite andb_true_r.
Qed.

Lemma string_index_decides_witness :
  isJsonSerializableType 2 (Fixture.checkerOf dictionaries) 1%positive ∅
  = isJsonSerializableType 1 (Fixture.checkerOf dictionaries) 2%positive
      ({[1%positive]} ∪ ∅)
  /\ exists b,
       verdict 4 (Fixture.checkerOf dictionaries) 1%positive = Some b
       /\ verdict 4 (Fixture.checkerOf dictionaries) 2%positive = Some b.
Proof.
  destruct (string_index_decides (Fixture.checkerOf dictionaries)
              1%positive 2%positive 1 ∅
              (Fixture.universe dictionaries 1%positive)) as [Hcall _].
  { repeat split; reflexivity. }
  { reflexivity. }
  destruct (string_index_decides (Fixture.checkerOf dictionaries)
              1%positive 2%positive 4 ∅
              (Fixture.universe dictionaries 1%positive)) as [_ Hfresh].
  { repeat split; reflexivity. }
  { reflexivity. }
  split.
  - apply Hcall. apply not_elem_of_empty.
  - apply Hfresh; [apply Fixture_reach_universe | vm_compute; lia].
Defined.

(** The claim, as stated, fails: a union that renders as a capitalised
    alias is judged serializable by its name, whatever its members. *)
Lemma composition_counterexample :
  isUnion (Fixture.checkerOf payloadUnion) 1%positive = true
  /\ types (Fixture.checkerOf payloadUnion) 1%positive = [2; 3]%positive
  /\ verdict 2 (Fixture.checkerOf payloadUnion) 1%positive = Some true
  /\ verdict 2 (Fixture.checkerOf payloadUnion) 2%positive = Some false
  /\ verdict 2 (Fixture.checkerOf payloadUnion) 3%positive = Some true.
Proof. repeat split; reflexivity. Qed.

(** C5, as the code has it.  For a union type, and likewise for an
    intersection type, whose canonical name settles nothing, the verdict
    from a fresh visited set is the conjunction of the verdicts of its
    members, each from a fresh visited set of its own. *)
Theorem union_intersection_composition
    (checker : TypeChecker) (type : TsType)
    (universe : gset TsType) (fuel : nat) :
  isUnion checker type = true \/ isIntersection checker type = true ->
  nameVerdict (canonicalName checker type) = None ->
  (forall d, reach checker type d -> d ∈ universe) ->
  size universe < fuel ->
  exists bs,
    Forall2 (fun member b => verdict fuel checker member = Some b)
            (types checker type) bs
    /\ verdict fuel checker type = Some (forallb id bs).
Proof.
  intros Hkind Hname Hfinite Hfuel.
  apply (verdict_components checker type universe fuel Hfinite Hfuel);
    [apply rtc_refl|].
  unfold classify, structuralStep. rewrite Hname.
  destruct Hkind as [-> | Hinter]; [reflexivity|].
  rewrite Hinter. now destruct (isUnion checker type).
Qed.

Lemma union_intersection_composition_witness :
  exists bs,
    Forall2 (fun member b =>
               verdict 5 (Fixture.checkerOf linkedList) member = Some b)
            (types (Fixture.checkerOf linkedList) 3%positive) bs
    /\ verdict 5 (Fixture.checkerOf linkedList) 3%positive
       = Some (forallb id bs).
Proof.
  apply (union_intersection_composition (Fixture.checkerOf linkedList)
           3%positive (Fixture.universe linkedList 3%positive) 5).
  - left. reflexivity.
  - reflexivity.
  - apply Fixture_reach_universe.
  - vm_compute. lia.
Defined.

(** The claim, as stated, fails: the object literal holds a [Date] in its
    structure, under the property [user] of type [User], and nothing is
    reported, because [User] is judged by its name.  Likewise a function
    held under the name of its alias, [Handler], is judged by that name
    before its signatures are looked at, and nothing is reported. *)
Lemma nested_date_counterexample :
  (selectContextArgument userRecordCall
   = Some (Fixture.arg ESTree.ObjectExpression 11)
   /\ resolveType (Fixture.servicesOf userRecord)
        (Fixture.arg ESTree.ObjectExpression 11) = 1%positive
   /\ contains (Fixture.checkerOf userRecord) 1%positive 3%positive
   /\ nonSerializableValue (Fixture.checkerOf userRecord) 3%positive
   /\ CallExpression 4 (Fixture.servicesOf userRecord) userRecordCall
      = Some [])
  /\ (selectContextArgument handlerAliasCall
      = Some (Fixture.arg ESTree.ObjectExpression 11)
      /\ resolveType (Fixture.servicesOf handlerAlias)
           (Fixture.arg ESTree.ObjectExpression 11) = 1%positive
      /\ contains (Fixture.checkerOf handlerAlias) 1%positive 2%positive
      /\ hasSignatures (Fixture.checkerOf handlerAlias) 2%positive = true
      /\ classify (Fixture.checkerOf handlerAlias) 2%positive = Accept
      /\ CallExpression 4 (Fixture.servicesOf handlerAlias) handlerAliasCall
         = Some []).
Proof.
  split.
  - split; [reflexivity|]. split; [reflexivity|]. split; [|split].
    + apply rtc_l with 2%positive; [|apply rtc_once];
        right; right; right.
      * exists 1%positive. split; [left | reflexivity].
      * exists 2%positive. split; [left | reflexivity].
    + left. cbn. auto.
    + reflexivity.
  - split; [reflexivity|]. split; [reflexivity|]. split; [|repeat split].
    apply rtc_once. right; right; right.
    exists 1%positive. split; [left | reflexivity].
Qed.

(** C2, as the code has it.  When the classifier can descend from the
    resolved type of the selected context argument, through types it
    decomposes, to a type named Date, Map, Set, RegExp, Promise or bigint,
    to a bigint literal type, or to a type that gets to the signature
    test (no name rule settles its canonical name and it is no union,
    intersection, tuple or array) and has a call or construct signature,
    the visitor reports exactly one diagnostic, for the method called and
    anchored at the context argument. *)
Theorem non_serializable_value_reported
    (services : Services) (node : ESTree.CallExpressionNode)
    (contextArg : ESTree.Node) (universe : gset TsType) (fuel : nat)
    (d : TsType) :
  selectContextArgument node = Some contextArg ->
  (forall x,
     reach (checker services) (resolveType services contextArg) x ->
     x ∈ universe) ->
  size universe < fuel ->
  reach (checker services) (resolveType services contextArg) d ->
  nonSerializableValue (checker services) d ->
  CallExpression fuel services node
  = Some [report (ESTree.name (ESTree.property (ESTree.callee node)))
                 contextArg].
Proof.
  intros Hselect Hfinite Hfuel Hreach Hbad.
  rewrite CallExpression_selected, Hselect.
  destruct (verdict_total (checker services)
              (resolveType services contextArg) universe fuel Hfinite Hfuel
              (resolveType services contextArg) (rtc_refl _ _)) as [b Hb].
  rewrite Hb. destruct b; [|reflexivity].
  exfalso.
  apply (proj1 (verdict_reach (checker services) fuel _ true Hb) eq_refl d Hreach).
  now apply nonSerializableValue_rejected.
Qed.

Lemma non_serializable_value_reported_witness :
  CallExpression 4 (Fixture.servicesOf timestamped) timestampedCall
  = Some [report "warn" (Fixture.arg ESTree.ObjectExpression 11)].
Proof.
  apply (non_serializable_value_reported (Fixture.servicesOf timestamped)
           timestampedCall (Fixture.arg ESTree.ObjectExpression 11)
           (Fixture.universe timestamped 1%positive) 4 3%positive).
  - reflexivity.
  - apply Fixture_reach_universe.
  - vm_compute. lia.
  - apply rtc_once. exists [2; 3]%positive. split; [reflexivity|].
    right. left.
  - right. right. repeat split; reflexivity.
Defined.

(** The claim, as stated, fails twice.  [Date] is a type-parameter-like
    name for the rule's own test, and a type of that name is judged not
    serializable, because the denylist is consulted first.  And the
    predicate is not total: on the types of
    [interface box<T> { inner: box<box<T>> }] no call returns, whatever
    the fuel. *)
Lemma unresolvable_inputs_counterexample :
  (canonicalName (Fixture.checkerOf sameName) 5%positive = "Date"
   /\ isLikelyTypeParameterName "Date" = true
   /\ isJsonSerializableType 1 (Fixture.checkerOf sameName) 5%positive ∅
      = Some (false, {[5%positive]}))
  /\ (canonicalName nestedBoxes 3%positive = "box<box<number>>"
      /\ forall (type : TsType) (fuel : nat),
           isJsonSerializableType fuel nestedBoxes type ∅ = None).
Proof.
  split; [repeat split; vm_compute; reflexivity|].
  split; [reflexivity|].
  intros type fuel. apply nestedBoxes_never_returns.
Qed.

(** C8, as the code has it.  On a finite type graph every call returns a
    verdict.  The verdict is [true], without any further call, for a type
    whose canonical name is any, never or unknown, or is
    type-parameter-like and not on the denylist, and for an array type
    without type argument that gets to the array step.  At the property
    step a property without value declaration is passed over as
    serializable: the call is the conjunction over the types of the
    declared properties alone, and is [true] without any further call
    when no property has a value declaration.  A type whose canonical
    name is on the denylist, type-parameter-like or not, is judged not
    serializable. *)
Theorem unresolvable_inputs_are_serializable
    (checker : TypeChecker) (type : TsType) (seen : Seen) (fuel : nat) :
  (forall (root : TsType) (universe : gset TsType),
     (forall d, reach checker root d -> d ∈ universe) ->
     reach checker root type ->
     size (universe ∖ seen) < S fuel ->
     exists b seen',
       isJsonSerializableType (S fuel) checker type seen = Some (b, seen'))
  /\ (In (canonicalName checker type) ["any"; "never"; "unknown"]
      \/ (isLikelyTypeParameterName (canonicalName checker type) = true
          /\ ~ In (canonicalName checker type) NON_SERIALIZABLE_TYPE_NAMES) ->
      exists seen',
        isJsonSerializableType (S fuel) checker type seen = Some (true, seen'))
  /\ (nameVerdict (canonicalName checker type) <> Some false ->
      isUnion checker type = false ->
      isIntersection checker type = false ->
      isTupleType checker type = false ->
      isArrayType checker type = true ->
      getTypeArguments checker type = [] ->
      exists seen',
        isJsonSerializableType (S fuel) checker type seen = Some (true, seen'))
  /\ (reachesPropertyStep checker type ->
      (type ∉ seen) ->
      isJsonSerializableType (S fuel) checker type seen
      = every (isJsonSerializableType fuel checker)
              (omap (propertyType checker) (getProperties checker type))
              ({[type]} ∪ seen))
  /\ (reachesPropertyStep checker type ->
      (forall propertySymbol,
         propertySymbol ∈ getProperties checker type ->
         valueDeclaration checker propertySymbol = None) ->
      exists seen',
        isJsonSerializableType (S fuel) checker type seen = Some (true, seen'))
  /\ (In (canonicalName checker type) NON_SERIALIZABLE_TYPE_NAMES ->
      (type ∉ seen) ->
      isJsonSerializableType (S fuel) checker type seen
      = Some (false, {[type]} ∪ seen)).
Proof.
  assert (Hguard :
            reachesPropertyStep checker type ->
            classify checker type
            = Recurse (omap (propertyType checker)
                            (getProperties checker type))).
  { intros [[(Hname & Hunion & Hinter & Htuple & Harray) Hsig]
             [Hindex Hproperties]].
    unfold classify, structuralStep.
    rewrite Hname, Hunion, Hinter, Htuple, Harray, Hsig, Hindex.
    replace ((List.length (getProperties checker type) =? 0)%nat
             && negb (String.eqb (canonicalName checker type) "{}"))
      with false; [reflexivity|].
    symmetry. destruct Hproperties as [Hsome | ->].
    - destruct (getProperties checker type); [contradiction | reflexivity].
    - apply andb_false_r. }
  split; [|split; [|split; [|split; [|split]]]].
  - intros root universe Hfinite Hreach Hfuel.
    destruct (isJsonSerializableType_total checker root universe Hfinite
                (S fuel) type seen Hreach Hfuel) as (b & seen' & Hrun & _).
    eauto.
  - intros Hname.
    destruct (settled_by_name checker fuel type seen true) as [seen' Hrun];
      [|eauto].
    destruct Hname as [Hname|[Hlike Hdeny]].
    + cbn [In] in Hname.
      destruct Hname as [<-|[<-|[<-|[]]]]; reflexivity.
    + now apply nameVerdict_type_parameter.
  - intros Hname Hunion Hinter Htuple Harray Harguments.
    rewrite isJsonSerializableType_step.
    case_bool_decide; [eauto|].
    unfold classify, structuralStep.
    rewrite Hunion, Hinter, Htuple, Harray, Harguments.
    destruct (nameVerdict _) as [[]|]; [eauto | congruence | eauto].
  - intros Hstep Hfresh.
    rewrite isJsonSerializableType_step.
    case_bool_decide; [contradiction|].
    now rewrite (Hguard Hstep).
  - intros Hstep Hundeclared.
    rewrite isJsonSerializableType_step.
    case_bool_decide; [eauto|].
    rewrite (Hguard Hstep).
    replace (omap (propertyType checker) (getProperties checker type))
      with (@nil TsType); [cbn; eauto|].
    symmetry. apply elem_of_nil_inv. intros declared Hdeclared.
    apply list_elem_of_omap in Hdeclared as (sym & Hsym & Hdeclared).
    unfold propertyType in Hdeclared.
    now rewrite (Hundeclared sym Hsym) in Hdeclared.
  - intros Hdeny Hfresh.
    rewrite isJsonSerializableType_step.
    case_bool_decide; [contradiction|].
    unfold classify, nameVerdict.
    now rewrite (proj2 (has_In _ _) Hdeny).
Qed.

Lemma unresolvable_inputs_are_serializable_witness :
  (exists b seen',
     isJsonSerializableType 4 (Fixture.checkerOf dictionaries) 3%positive ∅
     = Some (b, seen'))
  /\ (exists seen',
        isJsonSerializableType 1 (Fixture.checkerOf dictionaries) 7%positive ∅
        = Some (true, seen'))
  /\ (exists seen',
        isJsonSerializableType 1 (Fixture.checkerOf dictionaries) 5%positive ∅
        = Some (true, seen'))
  /\ isJsonSerializableType 2 (Fixture.checkerOf mappedRecord) 1%positive ∅
     = every (isJsonSerializableType 1 (Fixture.checkerOf mappedRecord))
             (omap (propertyType (Fixture.checkerOf mappedRecord))
                   (getProperties (Fixture.checkerOf mappedRecord) 1%positive))
             ({[1%positive]} ∪ ∅)
  /\ (exists seen',
        isJsonSerializableType 1 (Fixture.checkerOf dictionaries) 6%positive ∅
        = Some (true, seen'))
  /\ isJsonSerializableType 1 (Fixture.checkerOf dictionaries) 4%positive ∅
     = Some (false, {[4%positive]} ∪ ∅).
Proof.
  split; [|split; [|split; [|split; [|split]]]].
  - apply (proj1 (unresolvable_inputs_are_serializable
                    (Fixture.checkerOf dictionaries) 3%positive ∅ 3)
             3%positive (Fixture.universe dictionaries 3%positive)).
    + apply Fixture_reach_universe.
    + apply rtc_refl.
    + vm_compute. lia.
  - apply (proj1 (proj2 (unresolvable_inputs_are_serializable
                           (Fixture.checkerOf dictionaries) 7%positive ∅ 0))).
    right. split; [reflexivity|]. cbn. intuition discriminate.
  - apply (proj1 (proj2 (proj2 (unresolvable_inputs_are_serializable
                                  (Fixture.checkerOf dictionaries)
                                  5%positive ∅ 0))));
      try reflexivity.
    discriminate.
  - apply (proj1 (proj2 (proj2 (proj2 (unresolvable_inputs_are_serializable
                                         (Fixture.checkerOf mappedRecord)
                                         1%positive ∅ 1))))).
    + repeat split; try reflexivity. left. discriminate.
    + apply not_elem_of_empty.
  - apply (proj1 (proj2 (proj2 (proj2 (proj2
             (unresolvable_inputs_are_serializable
                (Fixture.checkerOf dictionaries) 6%positive ∅ 0)))))).
    + repeat split; try reflexivity. left. discriminate.
    + intros sym Hsym. cbn in Hsym.
      apply list_elem_of_singleton in Hsym as ->. reflexivity.
  - apply (proj2 (proj2 (proj2 (proj2 (proj2
             (unresolvable_inputs_are_serializable
                (Fixture.checkerOf dictionaries) 4%positive ∅ 0)))))).
    + cbn. auto.
    + apply not_elem_of_empty.
Defined.

(** The names of the denylist that pass the rule's test for a type
    parameter name. *)
Example denylisted_type_parameter_names :
  List.filter isLikelyTypeParameterName NON_SERIALIZABLE_TYPE_NAMES
  = ["Date"; "Function"; "Map"; "Promise"; "RegExp"; "Set"; "WeakMap";
     "WeakSet"].
Proof. reflexivity. Qed.

(** ** The scenarios of the typed fixture, evaluated *)

(** [logger.debug("monitor update", { attempt: 2, status: "up",
    tags: ["prod", "edge"] })] is not reported. *)
Example monitor_update_not_reported :
  CallExpression 3 (Fixture.servicesOf Fixture.monitorUpdate)
    Fixture.monitorUpdateCall = Some [].
Proof. reflexivity. Qed.

(** The names of bigint literal types, and names that only end like one. *)
Example bigint_literal_names :
  map isBigIntLiteralTypeName ["10n"; "-3n"; "0x1Fn"; "n"; "boolean"; "1.5n"; "Infinityn"]
  = [true; true; true; false; false; false; false].
Proof. reflexivity. Qed.

(** The names of numeric literal types. *)
Example numeric_literal_names :
  map isNumericLiteralTypeName ["2"; "-0.5"; "1e3"; "1e400"; "NaN"; "Infinity"; "{}"; "string[]"]
  = [true; true; true; false; false; false; false; false].
Proof. reflexivity. Qed.

(** What the canonical names of the fixture settle. *)
Example name_verdicts :
  map nameVerdict ["Date"; "bigint"; "unknown"; "T"; "Error"; "null";
                   "string"; "string[]"; "{}"; "() => void"; "Promise<void>"]
  = [Some false; Some false; Some true; Some true; Some true; Some true;
     Some true; None; None; None; None].
Proof. reflexivity. Qed.

(** [Number] on a few strings: binary64 values as [mantissa * 2 ^ exponent],
    rounding to nearest even, overflow to an infinity, underflow to zero. *)
Example number_values :
  map JS.StringToNumber
      ["0.1"; "9007199254740993"; "1.7976931348623159e308"; "2e-324";
       " 0x1F "; "-Infinity"; "1_000"; ""]
  = [JS.Finite false 7205759403792794 (-56);
     JS.Finite false 4503599627370496 1;
     JS.Infinity false;
     JS.Finite false 0 (-1074);
     JS.Finite false 8725724278030336 (-48);
     JS.Infinity true;
     JS.NaN;
     JS.Finite false 0 0].
Proof. reflexivity. Qed.

(** ** Further properties

    *** The rule no-call-identifiers *)

Lemma bannedByName_foldl (banned : list NoCallIdentifiers.BannedEntry)
    (map : gmap string NoCallIdentifiers.BannedEntry) (called : string) :
  foldl (fun map entry => <[NoCallIdentifiers.name entry := entry]> map)
        map banned !! called
  = match last (filter (fun entry => NoCallIdentifiers.name entry = called)
                       banned) with
    | Some entry => Some entry
    | None => map !! called
    end.
Proof.
  revert map. induction banned as [|entry rest IH]; intros map; [reflexivity|].
  cbn [foldl]. rewrite IH.
  destruct (decide (NoCallIdentifiers.name entry = called)) as [Heq|Hne].
  - rewrite filter_cons_True by assumption.
    destruct (filter _ rest) as [|e l] eqn:Hrest.
    + cbn. rewrite <- Heq. apply lookup_insert_eq.
    + rewrite last_cons_cons.
      destruct (last (e :: l)) eqn:Hlast; [reflexivity|].
      apply last_None in Hlast. discriminate.
  - rewrite filter_cons_False by assumption.
    destruct (last _); [reflexivity|]. now apply lookup_insert_ne.
Qed.

Lemma banned_lookup_last (banned : list NoCallIdentifiers.BannedEntry)
    (called : string) :
  NoCallIdentifiers.bannedByName banned !! called
  = last (filter (fun entry => NoCallIdentifiers.name entry = called) banned).
Proof.
  unfold NoCallIdentifiers.bannedByName. rewrite bannedByName_foldl.
  now destruct (last _).
Qed.

(** X1.  [bannedByName] keeps, for each name, the last entry of the banned
    list with that name: a lookup finds an entry exactly when the entry
    has the name and no later entry of the list has it, and finds nothing
    exactly when no entry has the name. *)
Theorem banned_lookup_is_last_entry
    (banned : list NoCallIdentifiers.BannedEntry) (called : string) :
  (forall entry,
     NoCallIdentifiers.bannedByName banned !! called = Some entry <->
     exists before after,
       banned = (before ++ entry :: after)%list
       /\ NoCallIdentifiers.name entry = called
       /\ Forall (fun later => NoCallIdentifiers.name later <> called) after)
  /\ (NoCallIdentifiers.bannedByName banned !! called = None <->
      Forall (fun entry => NoCallIdentifiers.name entry <> called) banned).
Proof.
  rewrite banned_lookup_last. split.
  - intros entry. split.
    + revert entry. induction banned as [|first rest IH]; intros entry Hlast;
        [discriminate|].
      destruct (decide (NoCallIdentifiers.name first = called)) as [Heq|Hne].
      * rewrite filter_cons_True in Hlast by assumption.
        destruct (filter _ rest) as [|e l] eqn:Hrest.
        -- injection Hlast as <-. exists [], rest. split; [reflexivity|].
           split; [assumption|]. apply Forall_forall. intros later Hlater Hname.
           assert (later ∈ filter
                     (fun e => NoCallIdentifiers.name e = called) rest)
             by (apply list_elem_of_filter; now split).
           rewrite Hrest in *. now apply elem_of_nil in H.
        -- rewrite last_cons_cons in Hlast.
           destruct (IH entry Hlast) as (before & after & -> & Hname & Hafter).
           exists (first :: before), after. auto.
      * rewrite filter_cons_False in Hlast by assumption.
        destruct (IH entry Hlast) as (before & after & -> & Hname & Hafter).
        exists (first :: before), after. auto.
    + intros (before & after & -> & Hname & Hafter).
      rewrite filter_app, filter_cons_True by assumption.
      replace (filter (fun e => NoCallIdentifiers.name e = called) after)
        with (@nil NoCallIdentifiers.BannedEntry).
      * apply last_snoc.
      * symmetry. apply elem_of_nil_inv. intros later Hlater.
        apply list_elem_of_filter in Hlater as [Hlater Hin].
        rewrite Forall_forall in Hafter. now apply (Hafter later).
  - rewrite last_None. split.
    + intros Hnone. apply Forall_forall. intros entry Hentry Hname.
      assert (entry ∈ filter
                (fun e => NoCallIdentifiers.name e = called) banned)
        by (apply list_elem_of_filter; now split).
      rewrite Hnone in *. now apply elem_of_nil in H.
    + intros Hall. apply elem_of_nil_inv. intros entry Hentry.
      apply list_elem_of_filter in Hentry as [Hname Hin].
      rewrite Forall_forall in Hall. now apply (Hall entry).
Qed.

(** X2.  The visitor makes at most one report per call.  It reports
    exactly when the call names an identifier, bare or as the property of
    a member access (computed or not), that some banned entry has; the
    report sits at the identifier, names it, and takes its details from
    the last banned entry of that name. *)
Theorem banned_call_reports
    (options : list NoCallIdentifiers.RuleOption)
    (callee : NoCallIdentifiers.Callee) :
  NoCallIdentifiers.CallExpression options callee
  = match NoCallIdentifiers.calledIdentifier callee with
    | None => []
    | Some (called, anchor) =>
        match last (filter
                      (fun entry => NoCallIdentifiers.name entry = called)
                      (NoCallIdentifiers.bannedOf options)) with
        | None => []
        | Some entry => [NoCallIdentifiers.bannedCall entry called anchor]
        end
    end.
Proof.
  unfold NoCallIdentifiers.CallExpression, NoCallIdentifiers.calledIdentifier.
  rewrite !banned_lookup_last.
  destruct (NoCallIdentifiers.type callee); cbn; try reflexivity.
  - now destruct (last _).
  - destruct (ESTree.property_type (NoCallIdentifiers.property callee));
      reflexivity.
Qed.

(** X3.  Whatever the options and the call, a report of the rule has the
    message id [bannedCall], names the identifier the call names, and has
    non-empty details: the message of a banned entry of that name, or the
    default sentence when that entry has no message or an empty one. *)
Theorem banned_call_report_shape
    (options : list NoCallIdentifiers.RuleOption)
    (callee : NoCallIdentifiers.Callee) (r : NoCallIdentifiers.Report) :
  In r (NoCallIdentifiers.CallExpression options callee) ->
  NoCallIdentifiers.messageId r = "bannedCall"
  /\ NoCallIdentifiers.data_details r <> ""
  /\ exists entry,
       In entry (NoCallIdentifiers.bannedOf options)
       /\ NoCallIdentifiers.name entry = NoCallIdentifiers.data_name r
       /\ NoCallIdentifiers.calledIdentifier callee
          = Some (NoCallIdentifiers.data_name r, NoCallIdentifiers.node r)
       /\ (NoCallIdentifiers.data_details r = "Call the shared helper instead."
           \/ NoCallIdentifiers.message entry
              = Some (NoCallIdentifiers.data_details r)).
Proof.
  unfold NoCallIdentifiers.CallExpression.
  rewrite !banned_lookup_last.
  assert (Hshape : forall entry called,
             last (filter
                     (fun e => NoCallIdentifiers.name e = called)
                     (NoCallIdentifiers.bannedOf options)) = Some entry ->
             NoCallIdentifiers.detailsFor entry <> ""
             /\ In entry (NoCallIdentifiers.bannedOf options)
             /\ NoCallIdentifiers.name entry = called
             /\ (NoCallIdentifiers.detailsFor entry
                 = "Call the shared helper instead."
                 \/ NoCallIdentifiers.message entry
                    = Some (NoCallIdentifiers.detailsFor entry))).
  { intros entry called Hlast.
    apply last_Some in Hlast as [l' Hl'].
    assert (Hentry : entry ∈ filter
                       (fun e => NoCallIdentifiers.name e = called)
                       (NoCallIdentifiers.bannedOf options)).
    { rewrite Hl'. apply elem_of_app. right. left. }
    apply list_elem_of_filter in Hentry as [Hname Hentry].
    unfold NoCallIdentifiers.detailsFor.
    split; [|split; [now apply list_elem_of_In | split; [assumption|]]].
    - destruct (NoCallIdentifiers.message entry) as [[|c text]|];
        try discriminate; destruct (_ <? _)%Z; discriminate.
    - destruct (NoCallIdentifiers.message entry) as [text|]; [|now left].
      destruct (_ <? _)%Z; [now right | now left]. }
  unfold NoCallIdentifiers.calledIdentifier.
  destruct (NoCallIdentifiers.type callee); cbn; try contradiction.
  - destruct (last _) as [entry|] eqn:Hlast; [|contradiction].
    intros [<-|[]]. cbn.
    destruct (Hshape entry _ Hlast)
      as (Hdetails & Hin & Hname & Hmessage).
    split; [reflexivity|]. split; [assumption|]. exists entry. auto.
  - destruct (ESTree.property_type (NoCallIdentifiers.property callee));
      cbn; try contradiction.
    destruct (last _) as [entry|] eqn:Hlast; [|contradiction].
    intros [<-|[]]. cbn.
    destruct (Hshape entry _ Hlast)
      as (Hdetails & Hin & Hname & Hmessage).
    split; [reflexivity|]. split; [assumption|]. exists entry. auto.
Qed.

Lemma banned_call_report_shape_witness :
  let r := NoCallIdentifiers.bannedCall
             {| NoCallIdentifiers.name := "fetch";
                NoCallIdentifiers.message := Some "" |} "fetch"
             NoCallIdentifiers.AtProperty in
  NoCallIdentifiers.messageId r = "bannedCall"
  /\ NoCallIdentifiers.data_details r <> ""
  /\ exists entry,
       In entry (NoCallIdentifiers.bannedOf bannedTimers)
       /\ NoCallIdentifiers.name entry = NoCallIdentifiers.data_name r
       /\ NoCallIdentifiers.calledIdentifier (memberCallOf "fetch")
          = Some (NoCallIdentifiers.data_name r, NoCallIdentifiers.node r)
       /\ (NoCallIdentifiers.data_details r = "Call the shared helper instead."
           \/ NoCallIdentifiers.message entry
              = Some (NoCallIdentifiers.data_details r)).
Proof.
  intros r.
  apply (banned_call_report_shape bannedTimers (memberCallOf "fetch") r).
  left. reflexivity.
Defined.

(** The options and calls of the example, evaluated: the later
    [setTimeout] entry, which has no message, replaces the earlier one. *)
Example banned_timers_reports :
  NoCallIdentifiers.CallExpression bannedTimers (bareCall "setTimeout")
  = [ {| NoCallIdentifiers.messageId := "bannedCall";
         NoCallIdentifiers.data_details := "Call the shared helper instead.";
         NoCallIdentifiers.data_name := "setTimeout";
         NoCallIdentifiers.node := NoCallIdentifiers.AtCallee |} ]
  /\ NoCallIdentifiers.CallExpression bannedTimers (bareCall "setInterval") = []
  /\ NoCallIdentifiers.CallExpression [] (bareCall "setTimeout") = [].
Proof. repeat split; reflexivity. Qed.

(** *** The rule no-deprecated-exports *)

Lemma matchIgnoreCase_spec pattern s rest :
  NoDeprecatedExports.matchIgnoreCase pattern s = Some rest <->
  exists tag,
    s = String.append tag rest
    /\ NoDeprecatedExports.lowerString tag = pattern.
Proof.
  revert s. induction pattern as [|p pattern IH]; intros s; cbn.
  - split.
    + intros [= ->]. now exists EmptyString.
    + intros ([|c tag] & -> & Hlower); [reflexivity | discriminate].
  - destruct s as [|c s].
    + split; [discriminate|].
      intros ([|c tag] & Hs & Hlower); discriminate.
    + destruct (Ascii.eqb_spec (NoDeprecatedExports.toLower c) p) as [Heq|Hne].
      * rewrite IH. split.
        -- intros (tag & -> & <-). exists (String c tag). cbn. now rewrite Heq.
        -- intros ([|c' tag] & Hs & Hlower); [discriminate|].
           cbn in Hs, Hlower. injection Hs as <- ->. injection Hlower as _ <-.
           now exists tag.
      * split; [discriminate|].
        intros ([|c' tag] & Hs & Hlower); [discriminate|].
        cbn in Hs, Hlower. injection Hs as <- ->. injection Hlower as Hc _.
        contradiction.
Qed.

(** X4.  On comment texts made of code units below 256, which are the
    texts a [string] of this development holds,
    [DEPRECATED_TAG_PATTERN] matches exactly when the text holds, at some
    position, the eleven characters of [@deprecated] in any mix of upper
    and lower case, followed by the end of the text or by a character
    that is none of the letters A to Z and a to z, the digits and the
    underscore.  Texts with characters above that range, among them
    U+017F and U+212A, which [\b] under the flags [iv] takes for word
    characters, are not covered. *)
Theorem deprecated_tag_pattern_spec (text : string) :
  NoDeprecatedExports.DEPRECATED_TAG_PATTERN_test text = true <->
  exists before tag after,
    text = String.append before (String.append tag after)
    /\ NoDeprecatedExports.lowerString tag = "@deprecated"
    /\ (after = ""
        \/ exists c rest, after = String c rest /\ JS.isWordChar c = false).
Proof.
  assert (Hend : forall after,
             NoDeprecatedExports.wordEndsAt after = true <->
             after = ""
             \/ exists c rest, after = String c rest /\ JS.isWordChar c = false).
  { intros [|c rest]; cbn.
    - split; auto.
    - rewrite negb_true_iff. split.
      + intros Hc. right. now exists c, rest.
      + intros [Hempty|(c' & rest' & [= -> ->] & Hc)];
          [discriminate | assumption]. }
  induction text as [|c text IH].
  - split; [discriminate|].
    intros ([|? ?] & [|? ?] & after & Htext & Hlower & _); discriminate.
  - cbn [NoDeprecatedExports.DEPRECATED_TAG_PATTERN_test].
    rewrite orb_true_iff, IH. unfold NoDeprecatedExports.tagAt. split.
    + intros [Hhere|(before & tag & after & -> & Hlower & Hafter)].
      * destruct (NoDeprecatedExports.matchIgnoreCase _ _) as [rest|] eqn:Hmatch;
          [|discriminate].
        apply matchIgnoreCase_spec in Hmatch as (tag & -> & Hlower).
        exists EmptyString, tag, rest. split; [reflexivity|].
        split; [assumption|]. now apply Hend.
      * exists (String c before), tag, after. auto.
    + intros ([|c' before] & tag & after & Htext & Hlower & Hafter).
      * left. cbn in Htext.
        assert (Hmatch : NoDeprecatedExports.matchIgnoreCase "@deprecated"
                           (String c text) = Some after)
          by (apply matchIgnoreCase_spec; now exists tag).
        rewrite Hmatch. now apply Hend.
      * right. cbn in Htext. injection Htext as <- ->.
        exists before, tag, after. auto.
Qed.

Example deprecated_tag_matches :
  map NoDeprecatedExports.DEPRECATED_TAG_PATTERN_test
      ["* @deprecated use other"; "* @Deprecated"; "* @deprecatedFoo";
       "* @deprecated_x"; "* deprecated"; "*@DEPRECATED."; ""]
  = [true; true; false; false; false; true; false].
Proof. reflexivity. Qed.

Lemma visitOne_target sourceCode inspected visit :
  NoDeprecatedExports.visitOne sourceCode inspected visit
  = NoDeprecatedExports.reportIfDeprecated sourceCode inspected
      (Some (NoDeprecatedExports.targetOf visit))
      (NoDeprecatedExports.exportOf visit).
Proof.
  destruct visit as [node|node]; cbn;
    unfold NoDeprecatedExports.ExportDefaultDeclaration,
           NoDeprecatedExports.ExportNamedDeclaration;
    destruct (NoDeprecatedExports.declaration node) as [declared|];
    try reflexivity.
  now destruct (ESTree.NodeType_eqb _ _).
Qed.

Lemma reportIfDeprecated_inspects sourceCode inspected target reportNode :
  let '(reports, inspected') :=
    NoDeprecatedExports.reportIfDeprecated sourceCode inspected
      (Some target) reportNode in
  inspected' = {[NoDeprecatedExports.id target]} ∪ inspected
  /\ List.length reports <= 1
  /\ (NoDeprecatedExports.id target ∈ inspected -> reports = []).
Proof.
  unfold NoDeprecatedExports.reportIfDeprecated.
  case_bool_decide as Hin.
  - split; [set_solver|]. split; [cbn; lia | reflexivity].
  - destruct (NoDeprecatedExports.getJSDocument _ _) as [comment|];
      [destruct (negb _)|];
      (split; [reflexivity|]; split; [cbn; lia | intros; contradiction]).
Qed.

(** X5.  Within one pass a node is inspected once: the second visit of an
    export whose target was already inspected reports nothing, and the
    reports of a whole traversal are never more than the distinct targets
    it meets. *)
Theorem deprecated_target_inspected_once
    (sourceCode : NoDeprecatedExports.SourceCode)
    (inspected : gset positive) (visits : list NoDeprecatedExports.Visit) :
  (forall visit,
     let '(_, inspected') :=
       NoDeprecatedExports.visitOne sourceCode inspected visit in
     NoDeprecatedExports.visitOne sourceCode inspected' visit
     = ([], inspected'))
  /\ List.length (NoDeprecatedExports.visitAll sourceCode inspected visits)
     <= size ((list_to_set
                 (map (fun visit =>
                         NoDeprecatedExports.id
                           (NoDeprecatedExports.targetOf visit)) visits)
               : gset positive) ∖ inspected).
Proof.
  split.
  - intros visit. rewrite visitOne_target.
    pose proof (reportIfDeprecated_inspects sourceCode inspected
                  (NoDeprecatedExports.targetOf visit)
                  (NoDeprecatedExports.exportOf visit)) as Hfirst.
    destruct (NoDeprecatedExports.reportIfDeprecated _ _ _ _)
      as [reports inspected'].
    destruct Hfirst as (-> & _ & _).
    rewrite visitOne_target.
    unfold NoDeprecatedExports.reportIfDeprecated.
    case_bool_decide as Hin; [reflexivity|]. set_solver.
  - revert inspected. induction visits as [|visit rest IH]; intros inspected;
      [cbn; lia|].
    cbn [NoDeprecatedExports.visitAll map]. rewrite visitOne_target.
    pose proof (reportIfDeprecated_inspects sourceCode inspected
                  (NoDeprecatedExports.targetOf visit)
                  (NoDeprecatedExports.exportOf visit)) as Hvisit.
    destruct (NoDeprecatedExports.reportIfDeprecated _ _ _ _)
      as [reports inspected'].
    destruct Hvisit as (-> & Hone & Hseen).
    rewrite length_app.
    set (target := NoDeprecatedExports.id (NoDeprecatedExports.targetOf visit))
      in *.
    specialize (IH ({[target]} ∪ inspected)).
    set (others := (list_to_set
                      (map (fun v => NoDeprecatedExports.id
                                       (NoDeprecatedExports.targetOf v)) rest)
                    : gset positive)) in *.
    rewrite list_to_set_cons. fold others.
    destruct (decide (target ∈ inspected)) as [Hin|Hfresh].
    + rewrite (Hseen Hin). cbn [List.length].
      etrans; [exact IH|]. apply subseteq_size. set_solver.
    + assert (Hsplit : ({[target]} ∪ others) ∖ inspected
                       = {[target]} ∪ others ∖ ({[target]} ∪ inspected)).
      { apply set_eq. intros x. destruct (decide (x = target)); set_solver. }
      rewrite Hsplit, size_union by set_solver.
      rewrite size_singleton. lia.
Qed.

(** X6.  On a host without [getJSDocComment], a visit reports, and then
    reports the export node once, exactly when its target was not yet
    inspected and the last comment before the target is a block comment
    that begins with a star after leading white space, ends no more than
    one line above the first line of the target, and carries the
    deprecated tag.  A line comment, a comment further up, or an earlier
    comment hidden by a later one never leads to a report. *)
Theorem deprecated_export_reported
    (sourceCode : NoDeprecatedExports.SourceCode)
    (inspected : gset positive) (visit : NoDeprecatedExports.Visit) :
  NoDeprecatedExports.getJSDocComment sourceCode = None ->
  (fst (NoDeprecatedExports.visitOne sourceCode inspected visit) = []
   \/ fst (NoDeprecatedExports.visitOne sourceCode inspected visit)
      = [ {| NoDeprecatedExports.messageId := "noDeprecatedExports";
             NoDeprecatedExports.node := NoDeprecatedExports.exportOf visit |} ])
  /\ (fst (NoDeprecatedExports.visitOne sourceCode inspected visit) <> [] <->
      (NoDeprecatedExports.id (NoDeprecatedExports.targetOf visit) ∉ inspected)
      /\ exists comments comment commentLoc nodeLoc,
           NoDeprecatedExports.getCommentsBefore sourceCode
             (NoDeprecatedExports.targetOf visit) = Some comments
           /\ last comments = Some comment
           /\ NoDeprecatedExports.comment_type comment
              = NoDeprecatedExports.Block
           /\ JS.startsWith
                (JS.trimStart (NoDeprecatedExports.value comment)) "*" = true
           /\ NoDeprecatedExports.comment_loc comment = Some commentLoc
           /\ NoDeprecatedExports.node_loc (NoDeprecatedExports.targetOf visit)
              = Some nodeLoc
           /\ (NoDeprecatedExports.start_line nodeLoc - 1
               <= NoDeprecatedExports.end_line commentLoc)%Z
           /\ NoDeprecatedExports.DEPRECATED_TAG_PATTERN_test
                (NoDeprecatedExports.value comment) = true).
Proof.
  intros Hapi. rewrite visitOne_target.
  set (target := NoDeprecatedExports.targetOf visit).
  unfold NoDeprecatedExports.reportIfDeprecated.
  case_bool_decide as Hin.
  { split; [now left|]. split; [intros H; now contradiction H|].
    intros [Hfresh _]. contradiction. }
  assert (Hdoc : forall comment,
             NoDeprecatedExports.getJSDocument sourceCode (Some target)
             = Some comment <->
             exists comments commentLoc nodeLoc,
               NoDeprecatedExports.getCommentsBefore sourceCode target
               = Some comments
               /\ last comments = Some comment
               /\ NoDeprecatedExports.comment_type comment
                  = NoDeprecatedExports.Block
               /\ JS.startsWith
                    (JS.trimStart (NoDeprecatedExports.value comment)) "*"
                  = true
               /\ NoDeprecatedExports.comment_loc comment = Some commentLoc
               /\ NoDeprecatedExports.node_loc target = Some nodeLoc
               /\ (NoDeprecatedExports.start_line nodeLoc - 1
                   <= NoDeprecatedExports.end_line commentLoc)%Z).
  { intros comment. unfold NoDeprecatedExports.getJSDocument.
    rewrite Hapi.
    destruct (NoDeprecatedExports.getCommentsBefore sourceCode target)
      as [comments|];
      [|split; [discriminate | intros (? & ? & ? & ? & _); discriminate]].
    destruct (Nat.eqb_spec (List.length comments) 0) as [Hlen|Hlen].
    { split; [discriminate|].
      intros (cs & ? & ? & [= <-] & Hlast & _).
      destruct comments; [discriminate Hlast | discriminate Hlen]. }
    destruct (last comments) as [lastComment|] eqn:Hlast;
      [|split; [discriminate|];
        intros (cs & ? & ? & [= <-] & Hl & _); congruence].
    unfold NoDeprecatedExports.isBlock.
    split.
    - destruct (NoDeprecatedExports.comment_type lastComment) eqn:Htype;
        cbn; try discriminate.
      destruct (JS.startsWith _ _) eqn:Hstar; cbn; [|discriminate].
      destruct (NoDeprecatedExports.comment_loc lastComment)
        as [commentLoc|] eqn:Hcloc; [|discriminate].
      destruct (NoDeprecatedExports.node_loc target)
        as [nodeLoc|] eqn:Hnloc; [|discriminate].
      destruct (Z.ltb_spec (NoDeprecatedExports.end_line commentLoc)
                  (NoDeprecatedExports.start_line nodeLoc - 1));
        [discriminate|].
      intros [= <-]. exists comments, commentLoc, nodeLoc.
      repeat split; auto.
    - intros (cs & commentLoc & nodeLoc & [= <-] & Hl & Htype & Hstar
              & Hcloc & Hnloc & Hlines).
      assert (lastComment = comment) as -> by congruence.
      rewrite Htype, Hstar, Hcloc, Hnloc. cbn.
      destruct (Z.ltb_spec (NoDeprecatedExports.end_line commentLoc)
                  (NoDeprecatedExports.start_line nodeLoc - 1));
        [lia | reflexivity]. }
  destruct (NoDeprecatedExports.getJSDocument sourceCode (Some target))
    as [comment|] eqn:Hfound.
  - destruct (NoDeprecatedExports.DEPRECATED_TAG_PATTERN_test
                (NoDeprecatedExports.value comment)) eqn:Htag; cbn.
    + split; [now right|]. split; [|discriminate].
      intros _. split; [assumption|].
      destruct (proj1 (Hdoc comment) eq_refl)
        as (comments & commentLoc & nodeLoc & H1 & H2 & H3 & H4 & H5 & H6 & H7).
      exists comments, comment, commentLoc, nodeLoc. repeat split; auto.
    + split; [now left|]. split; [intros H; now contradiction H|].
      intros (_ & comments & c & commentLoc & nodeLoc & H1 & H2 & H3 & H4
              & H5 & H6 & H7 & H8).
      assert (Hsame : Some comment = Some c) by (apply Hdoc; eauto 10).
      congruence.
  - cbn. split; [now left|]. split; [intros H; now contradiction H|].
    intros (_ & comments & c & commentLoc & nodeLoc & H1 & H2 & H3 & H4
            & H5 & H6 & H7 & H8).
    assert (Hsame : None = Some c) by (apply Hdoc; eauto 10).
    discriminate.
Qed.

Lemma deprecated_export_reported_witness :
  fst (NoDeprecatedExports.visitOne deprecatedModule ∅
         (NoDeprecatedExports.VisitNamed (exportAt 10 2)))
  = [ {| NoDeprecatedExports.messageId := "noDeprecatedExports";
         NoDeprecatedExports.node :=
           NoDeprecatedExports.export (exportAt 10 2) |} ]
  /\ fst (NoDeprecatedExports.visitOne deprecatedModule ∅
            (NoDeprecatedExports.VisitNamed (exportAt 20 7))) = [].
Proof.
  destruct (deprecated_export_reported deprecatedModule ∅
              (NoDeprecatedExports.VisitNamed (exportAt 10 2)) eq_refl)
    as [Hshape [_ Hback]].
  assert (Hreported :
            fst (NoDeprecatedExports.visitOne deprecatedModule ∅
                   (NoDeprecatedExports.VisitNamed (exportAt 10 2))) <> []).
  { apply Hback. split; [set_solver|].
    exists [deprecatedComment "* @deprecated use b " 1 1],
           (deprecatedComment "* @deprecated use b " 1 1),
           {| NoDeprecatedExports.start_line := 1;
              NoDeprecatedExports.end_line := 1 |},
           {| NoDeprecatedExports.start_line := 2;
              NoDeprecatedExports.end_line := 2 |}.
    repeat split; try reflexivity. }
  destruct Hshape as [Hnone|Hone]; [contradiction|].
  split; [exact Hone | reflexivity].
Defined.

(** The traversal of the example: one report, for the first export; the
    JSDoc two lines above, the line comment and the second visit of the
    first export give none. *)
Example deprecated_module_reports :
  NoDeprecatedExports.lint
    {| NoDeprecatedExports.sourceCode := Some deprecatedModule;
       NoDeprecatedExports.getSourceCode := None |} deprecatedVisits
  = [ {| NoDeprecatedExports.messageId := "noDeprecatedExports";
         NoDeprecatedExports.node :=
           NoDeprecatedExports.export (exportAt 10 2) |} ]
  /\ NoDeprecatedExports.lint
       {| NoDeprecatedExports.sourceCode := None;
          NoDeprecatedExports.getSourceCode := None |} deprecatedVisits = [].
Proof. split; reflexivity. Qed.

(** *** The rule logger-context-json-serializable, further *)

(** X7.  The visitor makes at most one report per call.  A report has the
    rule's message id, carries the name of the method called, one of the
    five logger methods, and is anchored at the selected context
    argument, which is literal-shaped and was judged not serializable:
    never at the message, at the error object or at a spread element. *)
Theorem logger_report_shape
    (fuel : nat) (services : Services) (node : ESTree.CallExpressionNode)
    (reports : list Report) :
  CallExpression fuel services node = Some reports ->
  reports = []
  \/ exists contextArg,
       reports = [ {| messageId := "loggerContextMustBeJsonSerializable";
                      data_method :=
                        ESTree.name (ESTree.property (ESTree.callee node));
                      node := contextArg |} ]
       /\ In (ESTree.name (ESTree.property (ESTree.callee node))) LOGGER_METHODS
       /\ nth_error (ESTree.arguments node)
            (if String.eqb (ESTree.name (ESTree.property (ESTree.callee node)))
                           "error"
             then 2 else 1) = Some contextArg
       /\ literalShaped (ESTree.type contextArg)
       /\ verdict fuel (checker services) (resolveType services contextArg)
          = Some false.
Proof.
  rewrite CallExpression_selected.
  destruct (selectContextArgument node) as [contextArg|] eqn:Hselect.
  - unfold selectContextArgument, getContextArgumentForMethod in Hselect.
    destruct (getLoggerMethod (ESTree.callee node)) as [method|] eqn:Hmethod;
      [|discriminate].
    apply getLoggerMethod_spec in Hmethod as (_ & _ & _ & Hname & Hin).
    subst method.
    destruct (_ <? 2)%nat; [discriminate|].
    destruct (nth_error _ _) as [candidate|] eqn:Hnth; [|discriminate].
    destruct (isContextLiteralExpression candidate) eqn:Hlit; [|discriminate].
    injection Hselect as ->.
    apply isContextLiteralExpression_spec in Hlit.
    destruct (verdict _ _ _) as [[]|] eqn:Hverdict; [| |discriminate].
    + intros [= <-]. now left.
    + intros [= <-]. right. exists contextArg. auto 10.
  - intros [= <-]. now left.
Qed.

Lemma logger_report_shape_witness :
  [report "warn" (Fixture.arg ESTree.ObjectExpression 11)] = []
  \/ exists contextArg,
       [report "warn" (Fixture.arg ESTree.ObjectExpression 11)]
       = [ {| messageId := "loggerContextMustBeJsonSerializable";
              data_method :=
                ESTree.name (ESTree.property (ESTree.callee timestampedCall));
              node := contextArg |} ]
       /\ In (ESTree.name (ESTree.property (ESTree.callee timestampedCall)))
             LOGGER_METHODS
       /\ nth_error (ESTree.arguments timestampedCall)
            (if String.eqb
                  (ESTree.name (ESTree.property (ESTree.callee timestampedCall)))
                  "error"
             then 2 else 1) = Some contextArg
       /\ literalShaped (ESTree.type contextArg)
       /\ verdict 4 (checker (Fixture.servicesOf timestamped))
            (resolveType (Fixture.servicesOf timestamped) contextArg)
          = Some false.
Proof.
  apply (logger_report_shape 4 (Fixture.servicesOf timestamped)
           timestampedCall).
  reflexivity.
Defined.

(** X8.  What the visitor does with a call depends on the callee, on
    whether the call has two arguments, and on the one argument at the
    method's context index: two calls that agree on these get the same
    reports, whatever their other arguments are (for error, the message
    and the error object; for the others, the message; for all, whatever
    follows the context argument). *)
Theorem other_arguments_are_ignored
    (fuel : nat) (services : Services)
    (node node' : ESTree.CallExpressionNode) :
  ESTree.callee node = ESTree.callee node' ->
  (2 <= List.length (ESTree.arguments node)
   <-> 2 <= List.length (ESTree.arguments node')) ->
  (let index :=
     if String.eqb (ESTree.name (ESTree.property (ESTree.callee node))) "error"
     then 2 else 1 in
   nth_error (ESTree.arguments node) index
   = nth_error (ESTree.arguments node') index) ->
  CallExpression fuel services node = CallExpression fuel services node'.
Proof.
  intros Hcallee Hlength Hindex.
  unfold CallExpression, getContextArgumentForMethod. rewrite <- Hcallee.
  destruct (getLoggerMethod (ESTree.callee node)) as [method|] eqn:Hmethod;
    [|reflexivity].
  apply getLoggerMethod_spec in Hmethod as (_ & _ & _ & Hname & _).
  subst method. cbv zeta in Hindex. rewrite <- Hindex.
  destruct (Nat.ltb_spec (List.length (ESTree.arguments node)) 2),
    (Nat.ltb_spec (List.length (ESTree.arguments node')) 2);
    try reflexivity; lia.
Qed.

Lemma other_arguments_are_ignored_witness :
  CallExpression 4 (Fixture.servicesOf timestamped) errorCallA
  = CallExpression 4 (Fixture.servicesOf timestamped) errorCallB.
Proof.
  apply (other_arguments_are_ignored 4 (Fixture.servicesOf timestamped)
           errorCallA errorCallB).
  - reflexivity.
  - cbn. lia.
  - reflexivity.
Defined.

(** X9.  The visited set can only make the classifier more lenient: a
    type judged serializable from a fresh visited set is judged
    serializable by every call on it that returns, whatever was visited
    before and whatever the fuel; and a type judged not serializable in
    the middle of a classification is not serializable on its own. *)
Theorem fresh_verdict_is_strictest
    (checker : TypeChecker) (type : TsType) (fuel fuel' : nat)
    (seen seen' : Seen) (b : bool) :
  verdict fuel checker type = Some true ->
  isJsonSerializableType fuel' checker type seen = Some (b, seen') ->
  isJsonSerializableType fuel' checker type seen = Some (true, seen').
Proof.
  intros Hfresh Hrun. rewrite Hrun. do 2 f_equal.
  eapply unrejected_true; [|eassumption].
  now apply (verdict_reach checker fuel type true Hfresh).
Qed.

Lemma fresh_verdict_is_strictest_witness :
  isJsonSerializableType 3 (Fixture.checkerOf linkedList) 1%positive
    {[3%positive]}
  = Some (true, {[3; 1; 2]}%positive).
Proof.
  apply (fresh_verdict_is_strictest (Fixture.checkerOf linkedList)
           1%positive 5 3 {[3%positive]} {[3; 1; 2]}%positive true).
  - reflexivity.
  - vm_compute. reflexivity.
Defined.

Lemma rejectedType_classify checker type :
  rejectedType checker type <-> classify checker type = Reject.
Proof.
  unfold rejectedType, classify, nameVerdict, reachesIndexStep,
    reachesSignatureStep, nameVerdict.
  destruct (has NON_SERIALIZABLE_TYPE_NAMES (canonicalName checker type))
    eqn:Hdeny.
  { apply has_In in Hdeny. cbn [orb]. tauto. }
  apply has_not_In in Hdeny.
  destruct (isBigIntLiteralTypeName (canonicalName checker type)) eqn:Hbig.
  { cbn [orb]. tauto. }
  cbn [orb].
  destruct (_ || _).
  { split; [|discriminate].
    intros [?|[?|[[[? _] _]|[[[? _] _] _]]]];
      [contradiction | discriminate..]. }
  destruct (_ || _).
  { split; [|discriminate].
    intros [?|[?|[[[? _] _]|[[[? _] _] _]]]];
      [contradiction | discriminate..]. }
  destruct (has JSON_PRIMITIVE_NAMES _).
  { split; [|discriminate].
    intros [?|[?|[[[? _] _]|[[[? _] _] _]]]];
      [contradiction | discriminate..]. }
  unfold structuralStep.
  destruct (isUnion checker type).
  { split; [|discriminate].
    intros [?|[?|[[(_ & ? & _) _]|[[(_ & ? & _) _] _]]]];
      [contradiction | discriminate..]. }
  destruct (isIntersection checker type).
  { split; [|discriminate].
    intros [?|[?|[[(_ & _ & ? & _) _]|[[(_ & _ & ? & _) _] _]]]];
      [contradiction | discriminate..]. }
  destruct (isTupleType checker type).
  { split; [|discriminate].
    intros [?|[?|[[(_ & _ & _ & ? & _) _]|[[(_ & _ & _ & ? & _) _] _]]]];
      [contradiction | discriminate..]. }
  destruct (isArrayType checker type).
  { split.
    - intros [?|[?|[[(_ & _ & _ & _ & ?) _]|[[(_ & _ & _ & _ & ?) _] _]]]];
        [contradiction | discriminate..].
    - destruct (getTypeArguments checker type); discriminate. }
  destruct (hasSignatures checker type).
  { split; [reflexivity|]. intros _. right. right. left. auto 10. }
  destruct (getStringIndexType checker type) as [stringIndexType|].
  { split; [|discriminate].
    intros [?|[?|[[_ ?]|(_ & ? & _)]]];
      [contradiction | discriminate..]. }
  destruct (getProperties checker type) as [|sym rest]; cbn.
  - destruct (String.eqb_spec (canonicalName checker type) "{}") as [Heq|Hne];
      cbn.
    + split; [|discriminate].
      intros [?|[?|[[_ ?]|(_ & _ & _ & ?)]]];
        [contradiction | discriminate.. | contradiction].
    + split; [reflexivity|]. intros _. right. right. right. auto 10.
  - split; [|discriminate].
    intros [?|[?|[[_ ?]|(_ & _ & ? & _)]]];
      [contradiction | discriminate..].
Qed.

Lemma every_false {A : Type} (f : A -> Seen -> Outcome) elements :
  forall seen seen',
    every f elements seen = Some (false, seen') ->
    exists x s, x ∈ elements /\ f x s = Some (false, seen').
Proof.
  induction elements as [|x rest IH]; intros seen seen' Hev; [discriminate|].
  cbn [every] in Hev.
  destruct (f x seen) as [[[] s]|] eqn:Hx; [| |discriminate].
  - destruct (IH s seen' Hev) as (y & s0 & Hy & Hfy).
    exists y, s0. split; [now right | assumption].
  - injection Hev as <-. exists x, seen. split; [left | assumption].
Qed.

(** A verdict [false] comes from a rejected type the classifier got to. *)
Lemma false_finds_rejected checker fuel type seen seen' :
  isJsonSerializableType fuel checker type seen = Some (false, seen') ->
  exists d, reach checker type d /\ classify checker d = Reject.
Proof.
  revert type seen seen'.
  induction fuel as [|fuel IH]; intros type seen seen' Hrun; [discriminate|].
  rewrite isJsonSerializableType_step in Hrun.
  case_bool_decide; [discriminate|].
  destruct (classify checker type) as [| |components] eqn:Hclass.
  - exists type. split; [apply rtc_refl | assumption].
  - discriminate.
  - apply every_false in Hrun as (x & s & Hx & Hrun).
    destruct (IH x s seen' Hrun) as (d & Hd & Hrejected).
    exists d. split; [|assumption].
    eapply rtc_l; [|eassumption]. exists components. now split.
Qed.

(** X10.  What a report means.  On a finite type graph, a selected call
    is reported exactly when the classifier can descend from the resolved
    type of the context argument, through the types it decomposes, to a
    type that is rejected on its own: one with a denylisted name, a
    bigint literal name, a call or construct signature, or no property
    at all under a name other than [{}].  Otherwise nothing is
    reported. *)
Theorem report_iff_rejected_type_reachable
    (services : Services) (node : ESTree.CallExpressionNode)
    (contextArg : ESTree.Node) (universe : gset TsType) (fuel : nat) :
  selectContextArgument node = Some contextArg ->
  (forall d,
     reach (checker services) (resolveType services contextArg) d ->
     d ∈ universe) ->
  size universe < fuel ->
  (CallExpression fuel services node
   = Some [report (ESTree.name (ESTree.property (ESTree.callee node)))
                  contextArg]
   <-> exists d,
         reach (checker services) (resolveType services contextArg) d
         /\ rejectedType (checker services) d)
  /\ (CallExpression fuel services node = Some []
      <-> forall d,
            reach (checker services) (resolveType services contextArg) d ->
            ~ rejectedType (checker services) d).
Proof.
  intros Hselect Hfinite Hfuel.
  rewrite CallExpression_selected, Hselect.
  destruct (verdict_total (checker services)
              (resolveType services contextArg) universe fuel Hfinite Hfuel
              (resolveType services contextArg) (rtc_refl _ _)) as [b Hb].
  pose proof (verdict_reach (checker services) fuel _ b Hb) as Hmeaning.
  rewrite Hb.
  assert (Hnone : (forall d,
                     reach (checker services)
                           (resolveType services contextArg) d ->
                     ~ rejectedType (checker services) d)
                  <-> b = true).
  { rewrite Hmeaning. split; intros H d Hd; specialize (H d Hd);
      now rewrite rejectedType_classify in *. }
  destruct b.
  - split.
    + split; [discriminate|].
      intros (d & Hd & Hrejected). exfalso.
      now apply (proj2 Hnone eq_refl d Hd).
    + split; [intros _; now apply Hnone | reflexivity].
  - split.
    + split; [intros _|reflexivity].
      unfold verdict in Hb.
      destruct (isJsonSerializableType fuel (checker services)
                  (resolveType services contextArg) ∅)
        as [[[] seen']|] eqn:Hrun; try discriminate.
      destruct (false_finds_rejected _ _ _ _ _ Hrun) as (d & Hd & Hrejected).
      exists d. split; [assumption|]. now apply rejectedType_classify.
    + split; [discriminate|]. intros Hall. apply Hnone in Hall. discriminate.
Qed.

Lemma report_iff_rejected_type_reachable_witness :
  (CallExpression 4 (Fixture.servicesOf userRecord) userRecordCall
   = Some [report "info" (Fixture.arg ESTree.ObjectExpression 11)]
   <-> exists d,
         reach (Fixture.checkerOf userRecord) 1%positive d
         /\ rejectedType (Fixture.checkerOf userRecord) d)
  /\ (CallExpression 4 (Fixture.servicesOf userRecord) userRecordCall = Some []
      <-> forall d,
            reach (Fixture.checkerOf userRecord) 1%positive d ->
            ~ rejectedType (Fixture.checkerOf userRecord) d).
Proof.
  apply (report_iff_rejected_type_reachable (Fixture.servicesOf userRecord)
           userRecordCall (Fixture.arg ESTree.ObjectExpression 11)
           (Fixture.universe userRecord 1%positive) 4).
  - reflexivity.
  - apply Fixture_reach_universe.
  - vm_compute. lia.
Defined.

Lemma every_visits {A : Type} (f : A -> Seen -> Outcome)
    (P : TsType -> Prop) elements :
  (forall x s b s', x ∈ elements -> f x s = Some (b, s') ->
                    forall y, y ∈ s' -> y ∈ s \/ P y) ->
  forall seen b seen',
    every f elements seen = Some (b, seen') ->
    forall y, y ∈ seen' -> y ∈ seen \/ P y.
Proof.
  induction elements as [|x rest IH]; intros Hf seen b seen' Hev y Hy.
  - injection Hev as _ <-. now left.
  - cbn [every] in Hev.
    destruct (f x seen) as [[bx s]|] eqn:Hx; [|discriminate].
    assert (Hstep : forall z, z ∈ s -> z ∈ seen \/ P z)
      by (eapply Hf; [left | eassumption]).
    destruct bx.
    + destruct (IH (fun z a c d Hz => Hf z a c d (list_elem_of_further _ _ _ Hz))
                   s b seen' Hev y Hy) as [Hin|HP]; auto.
    + injection Hev as _ <-. auto.
Qed.

Lemma visited_are_reachable checker fuel type seen b seen' :
  isJsonSerializableType fuel checker type seen = Some (b, seen') ->
  forall x, x ∈ seen' -> x ∈ seen \/ reach checker type x.
Proof.
  revert type seen b seen'.
  induction fuel as [|fuel IH]; intros type seen b seen' Hrun x Hx;
    [discriminate|].
  rewrite isJsonSerializableType_step in Hrun.
  case_bool_decide; [injection Hrun as _ <-; now left|].
  assert (Hself : forall y, y ∈ ({[type]} ∪ seen : Seen) ->
                            y ∈ seen \/ reach checker type y).
  { intros y Hy. apply elem_of_union in Hy as [Hy|Hy]; [|now left].
    apply elem_of_singleton in Hy as ->. right. apply rtc_refl. }
  destruct (classify checker type) as [| |components] eqn:Hclass.
  - injection Hrun as _ <-. now apply Hself.
  - injection Hrun as _ <-. now apply Hself.
  - destruct (every_visits (isJsonSerializableType fuel checker)
                (reach checker type) components) with
      (seen := ({[type]} ∪ seen : Seen)) (b := b) (seen' := seen') (y := x)
      as [Hin|Hreach]; try assumption.
    + intros m s bm s' Hm Hm_run y Hy.
      destruct (IH m s bm s' Hm_run y Hy) as [Hin|Hreach]; [now left|].
      right. eapply rtc_l; [|eassumption]. exists components. now split.
    + now apply Hself.
    + now right.
Qed.

(** X11.  From a fresh visited set the classifier visits only types it
    can descend to from the root, and when the verdict is [true] it has
    visited every one of them: the visited set is then exactly the set of
    those types. *)
Theorem visited_set_is_reachable_set
    (checker : TypeChecker) (root : TsType) (fuel : nat)
    (b : bool) (seen : Seen) :
  isJsonSerializableType fuel checker root ∅ = Some (b, seen) ->
  (forall x, x ∈ seen -> reach checker root x)
  /\ (b = true -> forall x, reach checker root x -> x ∈ seen).
Proof.
  intros Hrun. split.
  - intros x Hx.
    destruct (visited_are_reachable _ _ _ _ _ _ Hrun x Hx) as [Hin|Hreach];
      [set_solver | assumption].
  - intros -> x Hx.
    destruct (true_settles checker fuel root ∅ ∅ seen) as (Hset & Hin & _);
      [intros y Hy; set_solver | assumption |].
    now apply (settled_closed checker seen root x).
Qed.

Lemma visited_set_is_reachable_set_witness :
  (forall x, x ∈ ({[1; 2; 3; 4]} : Seen)%positive ->
             reach (Fixture.checkerOf linkedList) 1%positive x)
  /\ (forall x, reach (Fixture.checkerOf linkedList) 1%positive x ->
                x ∈ ({[1; 2; 3; 4]} : Seen)%positive).
Proof.
  destruct (visited_set_is_reachable_set (Fixture.checkerOf linkedList)
              1%positive 5 true {[1; 2; 3; 4]}%positive) as [Hsound Hfull].
  - vm_compute. reflexivity.
  - split; [exact Hsound | exact (Hfull eq_refl)].
Defined.

(** X12.  Composition over tuples, arrays and object types.  On a finite
    type graph, with verdicts from fresh visited sets: a tuple type that
    gets to the tuple step is serializable exactly when all its type
    arguments are; an array type that gets to the array step has the
    verdict of its first type argument; and a type that gets to the
    property step is serializable exactly when the declared types of all
    its properties are, properties without value declaration apart. *)
Theorem structural_composition
    (checker : TypeChecker) (type : TsType)
    (universe : gset TsType) (fuel : nat) :
  (forall d, reach checker type d -> d ∈ universe) ->
  size universe < fuel ->
  nameVerdict (canonicalName checker type) = None ->
  isUnion checker type = false ->
  isIntersection checker type = false ->
  (isTupleType checker type = true ->
   exists bs,
     Forall2 (fun element b => verdict fuel checker element = Some b)
             (getTypeArguments checker type) bs
     /\ verdict fuel checker type = Some (forallb id bs))
  /\ (forall elementType others,
        isTupleType checker type = false ->
        isArrayType checker type = true ->
        getTypeArguments checker type = elementType :: others ->
        exists b,
          verdict fuel checker elementType = Some b
          /\ verdict fuel checker type = Some b)
  /\ (reachesPropertyStep checker type ->
      exists bs,
        Forall2 (fun declared b => verdict fuel checker declared = Some b)
                (omap (propertyType checker) (getProperties checker type)) bs
        /\ verdict fuel checker type = Some (forallb id bs)).
Proof.
  intros Hfinite Hfuel Hname Hunion Hinter.
  pose proof (verdict_components checker type universe fuel Hfinite Hfuel
                type) as Hcompose.
  split; [|split].
  - intros Htuple. apply Hcompose; [apply rtc_refl|].
    unfold classify, structuralStep.
    now rewrite Hname, Hunion, Hinter, Htuple.
  - intros elementType others Htuple Harray Harguments.
    destruct (Hcompose [elementType]) as (bs & Hbs & Hverdict);
      [apply rtc_refl | |].
    + unfold classify, structuralStep.
      now rewrite Hname, Hunion, Hinter, Htuple, Harray, Harguments.
    + inversion Hbs as [|m b ? bs' Hb Hrest]; subst. inversion Hrest; subst.
      exists b. split; [assumption|].
      rewrite Hverdict. cbn. now rewrite andb_true_r.
  - intros [[(_ & _ & _ & Htuple & Harray) Hsig] [Hindex Hproperties]].
    apply Hcompose; [apply rtc_refl|].
    unfold classify, structuralStep.
    rewrite Hname, Hunion, Hinter, Htuple, Harray, Hsig, Hindex.
    destruct Hproperties as [Hsome | ->].
    + destruct (getProperties checker type); [contradiction | reflexivity].
    + now rewrite andb_false_r.
Qed.

Lemma structural_composition_witness :
  exists bs,
    Forall2 (fun declared b =>
               verdict 5 (Fixture.checkerOf linkedList) declared = Some b)
            (omap (propertyType (Fixture.checkerOf linkedList))
                  (getProperties (Fixture.checkerOf linkedList) 1%positive))
            bs
    /\ verdict 5 (Fixture.checkerOf linkedList) 1%positive
       = Some (forallb id bs).
Proof.
  apply (structural_composition (Fixture.checkerOf linkedList) 1%positive
           (Fixture.universe linkedList 1%positive) 5).
  - apply Fixture_reach_universe.
  - vm_compute. lia.
  - reflexivity.
  - reflexivity.
  - reflexivity.
  - repeat split; try reflexivity. left. discriminate.
Defined.

(** *** Literal type names *)

Lemma append_empty p : String.append EmptyString p = p.
Proof. reflexivity. Qed.

Lemma append_cons c s p :
  String.append (String c s) p = String c (String.append s p).
Proof. reflexivity. Qed.

Lemma endsWith_append s p : JS.endsWith (String.append s p) p = true.
Proof.
  induction s as [|c s IH].
  - rewrite append_empty. destruct p; cbn [JS.endsWith];
      now rewrite String.eqb_refl.
  - rewrite append_cons. cbn [JS.endsWith]. rewrite IH. apply orb_true_r.
Qed.

Lemma isEmpty_append_char s c :
  JS.isEmpty (String.append s (String c EmptyString)) = false.
Proof. now destruct s. Qed.

Lemma trimEnd_append_char s c :
  JS.isWhiteSpace c = false ->
  JS.trimEnd (String.append s (String c EmptyString))
  = String.append s (String c EmptyString).
Proof.
  intros Hc. induction s as [|a s IH].
  - rewrite append_empty. cbn [JS.trimEnd]. now rewrite Hc.
  - rewrite append_cons. cbn [JS.trimEnd].
    rewrite IH, isEmpty_append_char. now rewrite andb_false_r.
Qed.

Lemma sliceInit_append_char s c :
  JS.sliceInit (String.append s (String c EmptyString)) = s.
Proof.
  induction s as [|a s IH]; [reflexivity|].
  rewrite append_cons. destruct s as [|b s]; [reflexivity|].
  rewrite append_cons in *. rewrite sliceInit_cons. now rewrite IH.
Qed.

Lemma length_append_char s c :
  String.length (String.append s (String c EmptyString))
  = S (String.length s).
Proof.
  induction s as [|a s IH]; [reflexivity|].
  rewrite append_cons. cbn [String.length]. now rewrite IH.
Qed.

(** X13.  A string literal type is judged serializable by its name,
    whatever its text: the text may spell a denylisted name or end like
    a bigint literal. *)
Theorem string_literal_type_is_serializable
    (checker : TypeChecker) (type : TsType) (seen : Seen) (fuel : nat)
    (text : string) :
  typeToString checker type
  = String.append JS.doubleQuote (String.append text JS.doubleQuote) ->
  type ∉ seen ->
  isJsonSerializableType (S fuel) checker type seen
  = Some (true, {[type]} ∪ seen).
Proof.
  intros Hrendering Hfresh.
  rewrite isJsonSerializableType_step.
  case_bool_decide; [contradiction|].
  unfold classify, canonicalName. rewrite Hrendering.
  unfold JS.doubleQuote. rewrite append_cons, append_empty.
  rewrite trim_cons by reflexivity.
  rewrite trimEnd_append_char by reflexivity.
  set (q := ascii_of_nat 34).
  set (rest := String.append text (String q EmptyString)).
  assert (Hname : nameVerdict (String q rest) = Some true); [|now rewrite Hname].
  unfold nameVerdict.
  rewrite (isBigIntLiteralTypeName_start q rest) by reflexivity.
  replace (has NON_SERIALIZABLE_TYPE_NAMES (String q rest)) with false
    by reflexivity.
  replace (String.eqb (String q rest) "any") with false by reflexivity.
  replace (String.eqb (String q rest) "never") with false by reflexivity.
  replace (String.eqb (String q rest) "unknown") with false by reflexivity.
  replace (isLikelyTypeParameterName (String q rest)) with false
    by reflexivity.
  replace (has JSON_LITERAL_PRIMITIVE_NAMES (String q rest)) with false
    by reflexivity.
  assert (Hliteral : isStringLiteralTypeName (String q rest) = true);
    [|now rewrite Hliteral].
  unfold isStringLiteralTypeName, JS.doubleQuote. fold q.
  replace (JS.endsWith (String q rest) (String q EmptyString)) with true
    by (symmetry; apply (endsWith_append (String q text))).
  rewrite andb_true_r.
  apply andb_true_iff. split.
  - unfold JS.length, rest. cbn [String.length].
    rewrite length_append_char. apply Z.leb_le. lia.
  - unfold JS.startsWith. cbn [String.prefix].
    destruct (ascii_dec q q); [|contradiction]. now destruct rest.
Qed.

Lemma string_literal_type_is_serializable_witness :
  isJsonSerializableType 1 (Fixture.checkerOf literalTypes) 1%positive ∅
  = Some (true, {[1%positive]} ∪ ∅).
Proof.
  apply (string_literal_type_is_serializable
           (Fixture.checkerOf literalTypes) 1%positive ∅ 0 "Date").
  - reflexivity.
  - set_solver.
Defined.

(** *** Bigint literal names *)

Section DecimalDigits.

Local Open Scope Z_scope.

Lemma digit_facts c :
  JS.isDecimalDigit c = true ->
  0 <= JS.digitValue c <= 9
  /\ numericStart c = true
  /\ JS.isWhiteSpace c = false
  /\ (JS.code c =? 43) = false
  /\ (JS.code c =? 45) = false
  /\ (JS.code c =? 46) = false.
Proof.
  intros Hdigit. unfold JS.digitValue, numericStart. rewrite Hdigit.
  unfold JS.isDecimalDigit, JS.isWhiteSpace in *.
  set (n := JS.code c) in *.
  apply andb_true_iff in Hdigit as [Hlow Hhigh].
  apply Z.leb_le in Hlow. apply Z.leb_le in Hhigh.
  repeat split; try lia; try (apply Z.eqb_neq; lia);
    try (now rewrite ?orb_true_r);
    try (apply orb_false_iff; split; [apply orb_false_iff; split|];
         [ apply andb_false_iff; right; apply Z.leb_gt; lia
         | apply Z.eqb_neq; lia
         | apply Z.eqb_neq; lia ]).
Qed.

Lemma digitsValue_bounds ds :
  JS.all JS.isDecimalDigit ds = true ->
  forall acc,
    0 <= acc ->
    acc * 10 ^ Z.of_nat (String.length ds)
    <= JS.digitsValue 10 acc ds
    < (acc + 1) * 10 ^ Z.of_nat (String.length ds).
Proof.
  induction ds as [|c ds IH]; intros Hall acc Hacc.
  - cbn. lia.
  - cbn [JS.all] in Hall. apply andb_true_iff in Hall as [Hc Hall].
    destruct (digit_facts c Hc) as [Hvalue _].
    cbn [JS.digitsValue String.length].
    specialize (IH Hall (acc * 10 + JS.digitValue c) ltac:(lia)).
    rewrite Nat2Z.inj_succ, Z.pow_succ_r by lia.
    set (k := 10 ^ Z.of_nat (String.length ds)) in *.
    assert (0 < k) by (apply Z.pow_pos_nonneg; lia).
    nia.
Qed.

Lemma span_digits ds :
  JS.all JS.isDecimalDigit ds = true ->
  JS.span JS.isDecimalDigit ds = (ds, EmptyString).
Proof.
  induction ds as [|c ds IH]; intros Hall; [reflexivity|].
  cbn [JS.all] in Hall. apply andb_true_iff in Hall as [Hc Hall].
  cbn [JS.span]. now rewrite Hc, (IH Hall).
Qed.

Lemma trimEnd_digits ds :
  JS.all JS.isDecimalDigit ds = true -> JS.trimEnd ds = ds.
Proof.
  induction ds as [|c ds IH]; intros Hall; [reflexivity|].
  cbn [JS.all] in Hall. apply andb_true_iff in Hall as [Hc Hall].
  destruct (digit_facts c Hc) as (_ & _ & Hws & _).
  rewrite trimEnd_cons by assumption. now rewrite (IH Hall).
Qed.

Lemma append_empty_r s : String.append s EmptyString = s.
Proof.
  induction s as [|c s IH]; [reflexivity|]. now rewrite append_cons, IH.
Qed.

(** An integer below [10 ^ 308] converts to a finite Number that is an
    integer. *)
Lemma roundBinary64_integer p :
  0 <= p < 10 ^ 308 ->
  exists m e,
    JS.roundBinary64 p 1 = Some (m, e)
    /\ (0 <=? e) || (m mod 2 ^ (- e) =? 0) = true.
Proof.
  intros [Hlow Hhigh]. unfold JS.roundBinary64.
  destruct (Z.eqb_spec p 0) as [->|Hne]; [now exists 0, 0|].
  assert (Hpos : 0 < p) by lia.
  change (Z.log2 1) with 0. rewrite Z.sub_0_r.
  pose proof (Z.log2_nonneg p) as Hl.
  pose proof (Z.log2_spec p Hpos) as [Hl1 Hl2].
  set (l := Z.log2 p) in *.
  rewrite (Z.max_r 0 l), (Z.max_l 0 (- l)) by lia.
  rewrite Z.pow_0_r, Z.mul_1_l, Z.mul_1_r.
  destruct (Z.leb_spec (2 ^ l) p) as [_|Hbad]; [|lia].
  rewrite (Z.max_l (l - 52) (-1074)) by lia.
  cbv zeta.
  destruct (Z.lt_ge_cases l 52) as [Hsmall|Hlarge].
  - rewrite (Z.max_r 0 (- (l - 52))), (Z.max_l 0 (l - 52)) by lia.
    rewrite Z.pow_0_r, !Z.mul_1_l, Z.div_1_r, Z.mod_1_r.
    change (2 * 0 <? 1) with true. cbv iota.
    replace (- (l - 52)) with (52 - l) by lia.
    assert (Hscaled : p * 2 ^ (52 - l) < 2 ^ 53).
    { replace 53 with ((l + 1) + (52 - l)) by lia.
      rewrite (Z.pow_add_r 2 (l + 1)) by lia.
      apply Z.mul_lt_mono_pos_r; [apply Z.pow_pos_nonneg; lia|].
      now rewrite Z.add_1_r. }
    destruct (Z.eqb_spec (p * 2 ^ (52 - l)) (2 ^ 53)) as [Heq|_]; [lia|].
    destruct (Z.ltb_spec 971 (l - 52)) as [Hover|_]; [lia|].
    exists (p * 2 ^ (52 - l)), (l - 52). split; [reflexivity|].
    apply orb_true_iff. right. apply Z.eqb_eq.
    replace (- (l - 52)) with (52 - l) by lia.
    apply Z.mod_mul. apply Z.pow_nonzero; lia.
  - assert (Hl3 : l < 1024).
    { apply Z.log2_lt_pow2; [assumption|].
      eapply Z.lt_trans; [exact Hhigh|]. reflexivity. }
    rewrite (Z.max_l 0 (- (l - 52))), (Z.max_r 0 (l - 52)) by lia.
    rewrite Z.pow_0_r, Z.mul_1_r, !Z.mul_1_l.
    set (m0 := p / 2 ^ (l - 52)).
    set (r := p mod 2 ^ (l - 52)).
    set (m := if 2 * r <? 2 ^ (l - 52) then m0
              else if 2 ^ (l - 52) <? 2 * r then m0 + 1
              else if Z.even m0 then m0 else m0 + 1).
    assert (Hm : m <= m0 + 1).
    { unfold m. repeat destruct (_ <? _); try destruct (Z.even _); lia. }
    destruct (Z.eqb_spec m (2 ^ 53)) as [Heq|Hneq].
    + assert (Hl4 : l <= 1022).
      { destruct (Z.le_gt_cases l 1022) as [|Htop]; [assumption|].
        exfalso. assert (l = 1023) as Hl5 by lia.
        assert (Hm0 : m0 <= 10 ^ 308 / 2 ^ 971).
        { unfold m0. rewrite Hl5. change (1023 - 52) with 971.
          apply Z.div_le_mono; [reflexivity | lia]. }
        assert (Hconst : 10 ^ 308 / 2 ^ 971 + 1 < 2 ^ 53) by reflexivity.
        lia. }
      destruct (Z.ltb_spec 971 (l - 52 + 1)) as [Hover|_]; [lia|].
      exists (2 ^ 52), (l - 52 + 1). split; [reflexivity|].
      apply orb_true_iff. left. apply Z.leb_le. lia.
    + destruct (Z.ltb_spec 971 (l - 52)) as [Hover|_]; [lia|].
      exists m, (l - 52). split; [reflexivity|].
      apply orb_true_iff. left. apply Z.leb_le. lia.
Qed.

(** A run of at most 308 decimal digits converts to a finite Number
    that is an integer. *)
Lemma StrUnsignedDecimalLiteral_digits ds negative :
  ds <> EmptyString ->
  JS.all JS.isDecimalDigit ds = true ->
  (String.length ds <= 308)%nat ->
  JS.isInteger (JS.StrUnsignedDecimalLiteral negative ds) = true.
Proof.
  intros Hne Hall Hlen.
  unfold JS.StrUnsignedDecimalLiteral.
  assert (Hinf : String.eqb ds "Infinity" = false).
  { destruct ds as [|c r]; [contradiction|].
    cbn [JS.all] in Hall. apply andb_true_iff in Hall as [Hc _].
    cbn [String.eqb].
    destruct (Ascii.eqb_spec c "I") as [->|_]; [discriminate | reflexivity]. }
  rewrite Hinf. unfold JS.parseDecimal. rewrite (span_digits ds Hall).
  replace (JS.isEmpty ds) with false by (now destruct ds).
  cbn [andb JS.parseExponent]. rewrite append_empty_r.
  unfold JS.ofDecimal.
  change (0 - Z.of_nat (String.length "")) with 0.
  change (Z.max 0 (- 0)) with 0. change (Z.max 0 0) with 0.
  rewrite Z.pow_0_r, Z.mul_1_r.
  pose proof (digitsValue_bounds ds Hall 0 ltac:(lia)) as [Hlow Hhigh].
  destruct (roundBinary64_integer (JS.digitsValue 10 0 ds))
    as (m & e & -> & Hint).
  - split; [lia|]. eapply Z.lt_le_trans; [exact Hhigh|].
    rewrite Z.mul_1_l. apply Z.pow_le_mono_r; lia.
  - exact Hint.
Qed.

(** The conversion of a run of decimal digits that the bigint test makes. *)
Lemma StringToNumber_digits ds (negative : bool) :
  ds <> EmptyString ->
  JS.all JS.isDecimalDigit ds = true ->
  (String.length ds <= 308)%nat ->
  JS.isInteger
    (JS.StringToNumber (String.append (if negative then "-" else "") ds))
  = true.
Proof.
  intros Hne Hall Hlen.
  unfold JS.StringToNumber.
  destruct negative.
  - rewrite append_cons, append_empty.
    rewrite trim_cons by reflexivity. rewrite (trimEnd_digits ds Hall).
    change (Z.eqb (JS.code "-"%char) 43) with false.
    change (Z.eqb (JS.code "-"%char) 45) with true.
    cbv iota. now apply StrUnsignedDecimalLiteral_digits.
  - rewrite append_empty.
    destruct ds as [|c r] eqn:Hds; [contradiction|]. rewrite <- Hds in *.
    assert (Hc : JS.isDecimalDigit c = true).
    { rewrite Hds in Hall. cbn [JS.all] in Hall.
      now apply andb_true_iff in Hall as [Hc _]. }
    destruct (digit_facts c Hc) as (_ & _ & Hws & Hplus & Hminus & _).
    replace (JS.trim ds) with ds.
    2:{ rewrite Hds. rewrite trim_cons by assumption.
        rewrite <- (trimEnd_cons c r Hws). rewrite <- Hds.
        symmetry. now apply trimEnd_digits. }
    rewrite Hds at 1. rewrite Hplus, Hminus.
    assert (Hbase : JS.nonDecimalBase (String c r) = None).
    { unfold JS.nonDecimalBase. destruct r as [|k r']; [reflexivity|].
      destruct (JS.code c =? 48)%Z; [|reflexivity].
      assert (Hk : JS.isDecimalDigit k = true).
      { rewrite Hds in Hall. cbn [JS.all] in Hall.
        apply andb_true_iff in Hall as [_ Hall].
        now apply andb_true_iff in Hall as [Hk _]. }
      unfold JS.isDecimalDigit in Hk.
      apply andb_true_iff in Hk as [Hlow Hhigh].
      apply Z.leb_le in Hlow. apply Z.leb_le in Hhigh.
      cbv zeta.
      repeat match goal with
             | |- context [(JS.code k =? ?n)%Z] =>
                 replace (JS.code k =? n)%Z with false
                   by (symmetry; apply Z.eqb_neq; lia)
             end.
      reflexivity. }
    rewrite Hbase, <- Hds. now apply StrUnsignedDecimalLiteral_digits.
Qed.

Lemma isBigIntLiteralTypeName_digits ds (negative : bool) :
  ds <> EmptyString ->
  JS.all JS.isDecimalDigit ds = true ->
  (String.length ds <= 308)%nat ->
  isBigIntLiteralTypeName
    (String.append (if negative then "-" else "") (String.append ds "n"))
  = true.
Proof.
  intros Hne Hall Hlen. unfold isBigIntLiteralTypeName.
  set (sign := if negative then "-" else "").
  assert (Hassoc : String.append sign (String.append ds "n")
                   = String.append (String.append sign ds) "n").
  { unfold sign. destruct negative; [|reflexivity].
    now rewrite !append_cons, !append_empty. }
  rewrite Hassoc, endsWith_append, sliceInit_append_char.
  unfold JS.length. rewrite length_append_char.
  replace (Z.of_nat (S (String.length (String.append sign ds))) <=? 1)%Z
    with false.
  - cbn [negb orb]. now apply StringToNumber_digits.
  - symmetry. apply Z.leb_gt.
    destruct ds as [|c r]; [contradiction|].
    unfold sign. destruct negative; rewrite ?append_cons, ?append_empty;
      cbn [String.length]; lia.
Qed.

Lemma trim_bigint_literal ds (negative : bool) :
  ds <> EmptyString ->
  JS.all JS.isDecimalDigit ds = true ->
  JS.trim (String.append (if negative then "-" else "") (String.append ds "n"))
  = String.append (if negative then "-" else "") (String.append ds "n").
Proof.
  intros Hne Hall. destruct negative.
  - rewrite append_cons, append_empty, trim_cons by reflexivity.
    now rewrite trimEnd_append_char by reflexivity.
  - rewrite append_empty. destruct ds as [|c r]; [contradiction|].
    cbn [JS.all] in Hall. apply andb_true_iff in Hall as [Hc _].
    destruct (digit_facts c Hc) as (_ & _ & Hws & _).
    rewrite append_cons, trim_cons by assumption.
    now rewrite trimEnd_append_char by reflexivity.
Qed.

(** X15.  A bigint literal type is judged not serializable by its name:
    a type rendered as a run of at most 308 decimal digits followed by
    [n], with or without a minus sign before it, is rejected by the
    first name rule, whatever the checker says of its structure. *)
Theorem bigint_literal_type_is_rejected
    (checker : TypeChecker) (type : TsType) (seen : Seen) (fuel : nat)
    (negative : bool) (digits : string) :
  digits <> EmptyString ->
  JS.all JS.isDecimalDigit digits = true ->
  (String.length digits <= 308)%nat ->
  typeToString checker type
  = String.append (if negative then "-" else "") (String.append digits "n") ->
  type ∉ seen ->
  isJsonSerializableType (S fuel) checker type seen
  = Some (false, {[type]} ∪ seen).
Proof.
  intros Hne Hall Hlen Hrendering Hfresh.
  rewrite isJsonSerializableType_step.
  case_bool_decide; [contradiction|].
  unfold classify, canonicalName, nameVerdict.
  rewrite Hrendering, trim_bigint_literal by assumption.
  rewrite isBigIntLiteralTypeName_digits by assumption.
  now rewrite orb_true_r.
Qed.

Lemma bigint_literal_type_is_rejected_witness :
  isJsonSerializableType 1 (Fixture.checkerOf literalTypes) 4%positive ∅
  = Some (false, {[4%positive]} ∪ ∅).
Proof.
  apply (bigint_literal_type_is_rejected
           (Fixture.checkerOf literalTypes) 4%positive ∅ 0 true "3").
  - discriminate.
  - reflexivity.
  - cbn. lia.
  - reflexivity.
  - apply not_elem_of_empty.
Defined.

End DecimalDigits.
